(** * Notifier._message_templater (app/notification.py)

    A shallow embedding of the alert classification, deduplication and
    templating code of [Notifier], and the properties of its specification.

    Python objects that the function mutates or shares (the per-occurrence
    [analysis] dictionaries) live in a heap of records addressed by
    locations; the dictionaries and lists above them are never written by
    [_message_templater], so they are kept by value, as insertion-ordered
    association lists whose leaves are heap locations.  Two snapshots (or a
    snapshot and the state store [self.last_analysis]) alias exactly when
    they hold the same locations.

    The rest of the class follows: the configuration with
    [_validate_required_config] and [__init__], the five templated
    notifiers with the part of [notify_all] that calls them, and
    [notify_webhook], which writes the lists of the snapshot in place and
    so has a store of lists of its own. *)

From Stdlib Require Import List String Ascii ZArith Bool Arith Lia.
From Stdlib Require Import SpecFloat.
Import ListNotations.

Open Scope string_scope.
Open Scope list_scope.

(** ** Python values found in a DataFrame row *)

(** A [float] (or [numpy.float64], a subclass of it) is an IEEE-754 binary
    number: sign, mantissa and exponent, or a zero, an infinity or NaN. *)
Inductive value : Type :=
| VFloat (f : spec_float)
| VBool (b : bool)
| VInt (z : Z)
| VStr (s : string).

(** [isinstance(v, float)] *)
Definition is_float (v : value) : bool :=
  match v with VFloat _ => true | _ => false end.

(** Truth value of [v] in an [if]: zero, [False] and the empty string are
    false, everything else (NaN included) is true. *)
Definition truthy (v : value) : bool :=
  match v with
  | VFloat (S754_zero _) => false
  | VFloat _ => true
  | VBool b => b
  | VInt z => negb (z =? 0)%Z
  | VStr s => negb (s =? "")%string
  end.

(** ** Insertion-ordered dictionaries with string keys *)

Section Dict.
Context {V : Type}.

Definition dict := list (string * V).

(** [d[k]], [None] standing for [KeyError]. *)
Fixpoint dict_get (k : string) (d : dict) : option V :=
  match d with
  | [] => None
  | (k', v) :: d' => if (k' =? k)%string then Some v else dict_get k d'
  end.

(** [d[k] = v]: an existing key keeps its place, a new one goes last. *)
Fixpoint dict_set (k : string) (v : V) (d : dict) : dict :=
  match d with
  | [] => [(k, v)]
  | (k', v') :: d' =>
      if (k' =? k)%string then (k, v) :: d' else (k', v') :: dict_set k v d'
  end.

(** [{**a, **b}] *)
Definition dict_merge (a b : dict) : dict :=
  fold_left (fun acc kv => dict_set (fst kv) (snd kv) acc) b a.

Definition dict_keys (d : dict) : list string := map fst d.

(** [not d] *)
Definition dict_is_empty (d : dict) : bool :=
  match d with [] => true | _ => false end.
End Dict.

Arguments dict V : clear implicits.

(** ** [format(x, '.8f')] *)

Module Format.

Definition digit (n : Z) : ascii := ascii_of_nat (48 + Z.to_nat n).

(** Decimal digits of a non-negative integer, most significant first. *)
Fixpoint digits_fuel (fuel : nat) (n : Z) (acc : string) : string :=
  match fuel with
  | O => acc
  | S fuel' =>
      let acc' := String (digit (n mod 10)) acc in
      if (n / 10 =? 0)%Z then acc' else digits_fuel fuel' (n / 10) acc'
  end.

Definition decimal (n : Z) : string :=
  digits_fuel (S (Z.to_nat (Z.log2 n))) n "".

(** The [k] low decimal digits of [n], zero padded. *)
Fixpoint fixed_digits (k : nat) (n : Z) (acc : string) : string :=
  match k with
  | O => acc
  | S k' => fixed_digits k' (n / 10) (String (digit (n mod 10)) acc)
  end.

(** [num / den] rounded to the nearest integer, ties to even. *)
Definition round_half_even (num den : Z) : Z :=
  let q := (num / den)%Z in
  let r := (num mod den)%Z in
  if (2 * r <? den)%Z then q
  else if (den <? 2 * r)%Z then (q + 1)%Z
  else if Z.even q then q else (q + 1)%Z.

(** |x| * 10^8 rounded to an integer, for x = m * 2^e. *)
Definition scaled_8 (m : positive) (e : Z) : Z :=
  if (0 <=? e)%Z then (Z.pos m * 2 ^ e * 10 ^ 8)%Z
  else round_half_even (Z.pos m * 10 ^ 8) (2 ^ (- e)).

Definition sign_string (s : bool) : string := if s then "-" else "".

Definition fixed_8 (s : bool) (n : Z) : string :=
  (sign_string s
   ++ decimal (n / 10 ^ 8)
   ++ "." ++ fixed_digits 8 (n mod 10 ^ 8) "")%string.

Definition format_8f (x : spec_float) : string :=
  match x with
  | S754_nan => "nan"
  | S754_infinity s => (sign_string s ++ "inf")%string
  | S754_zero s => fixed_8 s 0
  | S754_finite s m e => fixed_8 s (scaled_8 m e)
  end.

(** What "a fixed-point string with exactly 8 decimal places" means: an
    optional sign, at least one digit, a point, and eight digits. *)
Definition is_digit (c : ascii) : bool :=
  ((48 <=? nat_of_ascii c) && (nat_of_ascii c <=? 57))%nat.

Fixpoint all_digits (s : string) : bool :=
  match s with
  | EmptyString => true
  | String c s' => is_digit c && all_digits s'
  end.

Fixpoint point_then_8 (s : string) (seen_digit : bool) : bool :=
  match s with
  | EmptyString => false
  | String c s' =>
      if is_digit c then point_then_8 s' true
      else if (c =? ".")%char
           then seen_digit && all_digits s' && (String.length s' =? 8)%nat
           else false
  end.

Definition is_fixed_8 (s : string) : bool :=
  match s with
  | String c s' =>
      if (c =? "-")%char then point_then_8 s' false else point_then_8 s false
  | EmptyString => false
  end.

End Format.

(** ** The analysis snapshot *)

Definition Row := dict value.

(** [analysis['config']] *)
Record Config : Type := mkConfig {
  signal : list string;
  alert_frequency : string;
  alert_enabled : bool
}.

(** One occurrence of an indicator: the dictionary bound to [analysis] in
    the innermost loop.  [result] is the DataFrame, a row per line; the key
    ['status'] is absent until an alert fires (or upstream supplies it). *)
Record Analysis : Type := mkAnalysis {
  config : Config;
  result : list Row;
  status : option string
}.

Definition loc := nat.

(** [market['indicators']] : indicator name -> list of occurrences.  A
    market dictionary is kept as its ['indicators'] entry, the only one the
    method reads. *)
Definition Indicators := dict (list loc).
(** exchange -> market -> indicators *)
Definition Markets := dict Indicators.
Definition Snapshot := dict Markets.

(** The object store: every location holds an occurrence dictionary. *)
Definition Heap := loc -> Analysis.

Definition set_status (l : loc) (s : string) (h : Heap) : Heap :=
  fun l' =>
    if Nat.eqb l' l
    then mkAnalysis (config (h l)) (result (h l)) (Some s)
    else h l'.

(** The program state: the heap and [self.last_analysis]. *)
Record World : Type := mkWorld {
  heap : Heap;
  last_analysis : Snapshot
}.

(** ** Exceptions and the state monad of the method *)

Inductive exn : Type :=
| KeyError (key : string)
| IndexError
| UnboundLocalError
| TemplateError.

Inductive outcome (A : Type) : Type :=
| Ok (a : A)
| Raise (e : exn).
Arguments Ok {A} a.
Arguments Raise {A} e.

(** A computation runs in a world and leaves a world, also when it raises:
    what was written before the exception stays written. *)
Definition M (A : Type) : Type := World -> outcome A * World.

Definition ret {A} (a : A) : M A := fun w => (Ok a, w).

Definition bind {A B} (m : M A) (k : A -> M B) : M B :=
  fun w =>
    match m w with
    | (Ok a, w') => k a w'
    | (Raise e, w') => (Raise e, w')
    end.

Definition lift {A} (o : outcome A) : M A := fun w => (o, w).

Notation "x <- m ;; k" := (bind m (fun x => k))
  (at level 61, m at next level, right associativity).
Notation "m ;;; k" := (bind m (fun _ => k))
  (at level 61, right associativity).

Definition read (l : loc) : M Analysis := fun w => (Ok (heap w l), w).

Definition write_status (l : loc) (s : string) : M unit :=
  fun w => (Ok tt, mkWorld (set_status l s (heap w)) (last_analysis w)).

Definition get_last_analysis : M Snapshot :=
  fun w => (Ok (last_analysis w), w).

Definition set_last_analysis (s : Snapshot) : M unit :=
  fun w => (Ok tt, mkWorld (heap w) s).

(** [for x in xs: s = body(x, s)] *)
Fixpoint for_each {X S : Type} (xs : list X) (body : X -> S -> M S) (s : S)
  : M S :=
  match xs with
  | [] => ret s
  | x :: xs' => s' <- body x s ;; for_each xs' body s'
  end.

(** [enumerate(xs)] *)
Definition enumerate {X : Type} (xs : list X) : list (nat * X) :=
  combine (seq 0 (List.length xs)) xs.

(** ** Rows *)

(** [df.iloc[-1]] *)
Definition iloc_last (df : list Row) : outcome Row :=
  match rev df with
  | [] => Raise IndexError
  | r :: _ => Ok r
  end.

(** [row[column]] *)
Definition row_item (r : Row) (column : string) : outcome value :=
  match dict_get column r with
  | Some v => Ok v
  | None => Raise (KeyError column)
  end.

(** ** The rendering context and the template engine *)

Record Context : Type := mkContext {
  ctx_values : dict value;
  ctx_exchange : string;
  ctx_market : string;
  ctx_indicator : string;
  ctx_indicator_number : nat;
  ctx_analysis : Analysis;
  ctx_status : string;
  ctx_last_status : string
}.

(** A compiled template: [message_template.render] on a context, which may
    raise. *)
Definition renderer := Context -> outcome string.

(** ** One pass of the innermost loop *)

(** The variables of the method that outlive an iteration. *)
Record Locals : Type := mkLocals {
  latest_result : option Row;
  new_message : string
}.

(** Lines 239-244.  [latest_result] is bound inside the loop over the signals:
    with no signal it keeps the row of an earlier occurrence. *)
Fixpoint signal_loop (analysis : Analysis) (signals : list string)
    (values : dict value) (latest : option Row)
  : outcome (dict value * option Row) :=
  match signals with
  | [] => Ok (values, latest)
  | signal :: rest =>
      match iloc_last (result analysis) with
      | Raise e => Raise e
      | Ok row =>
          match row_item row signal with
          | Raise e => Raise e
          | Ok v =>
              let v' := match v with
                        | VFloat x => VStr (Format.format_8f x)
                        | _ => v
                        end in
              signal_loop analysis rest (dict_set signal v' values) (Some row)
          end
      end
  end.

(** Lines 246-250. *)
Definition classify (latest : Row) : outcome string :=
  match row_item latest "is_hot" with
  | Raise e => Raise e
  | Ok hot =>
      if truthy hot then Ok "hot"
      else match row_item latest "is_cold" with
           | Raise e => Raise e
           | Ok cold => if truthy cold then Ok "cold" else Ok "neutral"
           end
  end.

(** Line 252: [latest_result['is_hot'] or latest_result['is_cold']]. *)
Definition alert_worthy (latest : Row) : outcome bool :=
  match row_item latest "is_hot" with
  | Raise e => Raise e
  | Ok hot =>
      if truthy hot then Ok true
      else match row_item latest "is_cold" with
           | Raise e => Raise e
           | Ok cold => Ok (truthy cold)
           end
  end.

(** The place of an occurrence in a snapshot, and the object found there. *)
Record Visit : Type := mkVisit {
  v_exchange : string;
  v_market : string;
  v_indicator : string;
  v_index : nat;
  v_loc : loc
}.

(** [tree[exchange][market]['indicators'][indicator][index]] *)
Definition lookup_loc (tree : Snapshot) (exchange market indicator : string)
    (index : nat) : option loc :=
  match dict_get exchange tree with
  | None => None
  | Some markets =>
      match dict_get market markets with
      | None => None
      | Some indicators =>
          match dict_get indicator indicators with
          | None => None
          | Some analyses => nth_error analyses index
          end
      end
  end.

(** Lines 253-256: the stored status, the empty string when any step of the
    lookup fails. *)
Definition stored_status (w : World) (exchange market indicator : string)
    (index : nat) : string :=
  match lookup_loc (last_analysis w) exchange market indicator index with
  | None => ""
  | Some l => match status (heap w l) with
              | Some s => s
              | None => ""
              end
  end.

Definition get_last_status (v : Visit) : M string :=
  fun w =>
    (Ok (stored_status w (v_exchange v) (v_market v) (v_indicator v)
           (v_index v)), w).

(** Lines 258-264. *)
Definition should_alert (c : Config) (last_status current : string) : bool :=
  let should_alert := true in
  let should_alert :=
    if (alert_frequency c =? "once")%string
    then (if (last_status =? current)%string then false else should_alert)
    else should_alert in
  if negb (alert_enabled c) then false else should_alert.

(** Lines 238-277, for the occurrence [v]. *)
Definition process_analysis (message_template : renderer) (v : Visit)
    (locals : Locals) : M Locals :=
  analysis <- read (v_loc v) ;;
  vl <- lift (signal_loop analysis (signal (config analysis)) []
                (latest_result locals)) ;;
  let values := fst vl in
  latest <- lift (match snd vl with
                  | Some row => Ok row
                  | None => Raise UnboundLocalError
                  end) ;;
  status <- lift (classify latest) ;;
  worthy <- lift (alert_worthy latest) ;;
  if worthy : bool then
    last_status <- get_last_status v ;;
    if should_alert (config analysis) last_status status then
      write_status (v_loc v) status ;;;
      analysis' <- read (v_loc v) ;;
      text <- lift (message_template
                      (mkContext values (v_exchange v) (v_market v)
                         (v_indicator v) (v_index v) analysis' status
                         last_status)) ;;
      ret (mkLocals (Some latest) (new_message locals ++ text)%string)
    else ret (mkLocals (Some latest) (new_message locals))
  else ret (mkLocals (Some latest) (new_message locals)).

(** ** [Notifier._message_templater] *)

Section Templater.

(** [jinja2.Template(template)]: compiles the template text, or raises. *)
Variable Template : string -> outcome renderer.

Definition message_templater (new_analysis : Snapshot) (template : string)
  : M string :=
  last <- get_last_analysis ;;
  (if dict_is_empty last then set_last_analysis new_analysis else ret tt) ;;;
  message_template <- lift (Template template) ;;
  locals <-
    for_each new_analysis (fun ex locals =>
      for_each (snd ex) (fun mk locals =>
        for_each (snd mk) (fun ind locals =>
          for_each (enumerate (snd ind)) (fun ia locals =>
            process_analysis message_template
              (mkVisit (fst ex) (fst mk) (fst ind) (fst ia) (snd ia))
              locals)
            locals)
          locals)
        locals)
      (mkLocals None "") ;;
  last <- get_last_analysis ;;
  set_last_analysis (dict_merge last new_analysis) ;;;
  ret (new_message locals).

End Templater.

(** ** A concrete scenario *)

Module Scenario.

(** The template ["{{indicator}} is {{status}}: {{values.value}}"]. *)
Definition show (v : value) : string :=
  match v with
  | VStr s => s
  | VBool true => "True"
  | VBool false => "False"
  | VInt z =>
      if (z <? 0)%Z then ("-" ++ Format.decimal (- z))%string
      else Format.decimal z
  | VFloat x => Format.format_8f x
  end.

Definition text_basic (c : Context) : string :=
  (ctx_indicator c ++ " is " ++ ctx_status c ++ ": "
   ++ match dict_get "value" (ctx_values c) with
      | Some v => show v
      | None => ""
      end)%string.

Definition render_basic : renderer := fun c => Ok (text_basic c).

(** The template ["{{ 1 // indicator_number }}"]: the division fails for
    the occurrence of index 0. *)
Definition render_div : renderer := fun c =>
  match ctx_indicator_number c with
  | 0 => Raise TemplateError
  | 1 => Ok "1"
  | _ => Ok "0"
  end.

Definition Template (t : string) : outcome renderer :=
  if (t =? "{{indicator}} is {{status}}: {{values.value}}")%string
  then Ok render_basic
  else if (t =? "{{ 1 // indicator_number }}")%string then Ok render_div
  else Raise TemplateError.

Definition basic := "{{indicator}} is {{status}}: {{values.value}}".

(* 71.234 as a binary64 *)
Definition f71_234 : spec_float := S754_finite false 5012647122751717 (-46).

Definition row (hot cold : bool) : Row :=
  [("value", VFloat f71_234); ("is_hot", VBool hot); ("is_cold", VBool cold)].

Definition occ (freq : string) (enabled hot cold : bool) : Analysis :=
  mkAnalysis (mkConfig ["value"] freq enabled) [row false false; row hot cold] None.

Definition empty_occ : Analysis := mkAnalysis (mkConfig [] "always" false) [] None.

(* 0.1 as a binary64 *)
Definition f0_1 : spec_float := S754_finite false 7205759403792794 (-56).

Definition mixed_row : Row :=
  [("value", VFloat f0_1); ("count", VInt 3); ("gap", VFloat S754_nan);
   ("is_hot", VBool true); ("is_cold", VBool false)].

Definition mixed_occ : Analysis :=
  mkAnalysis (mkConfig ["value"; "count"; "gap"] "always" true)
    [mixed_row] None.

(** A heap given by its allocated objects. *)
Definition heap_of (objs : list (loc * Analysis)) : Heap :=
  fun l =>
    match find (fun o => Nat.eqb (fst o) l) objs with
    | Some o => snd o
    | None => empty_occ
    end.

Definition one (l : loc) : Snapshot :=
  [("ex1", [("BTC/USD", [("rsi", [l])])])].

Definition with_status (a : Analysis) (s : string) : Analysis :=
  mkAnalysis (config a) (result a) (Some s).

Definition hot_once : Analysis := occ "once" true true false.
Definition cold_once : Analysis := occ "once" true false true.
Definition neutral_once : Analysis := occ "once" true false false.
Definition hot_always : Analysis := occ "always" true true false.

(** The place of the only occurrence of [one l]. *)
Definition the_visit (l : loc) : Visit := mkVisit "ex1" "BTC/USD" "rsi" 0 l.

(** A first call: nothing stored, a hot occurrence without 'status'. *)
Definition first_call : World := mkWorld (heap_of [(1, hot_once)]) [].

(** A first call on an occurrence that already carries 'status'. *)
Definition first_call_with_status : World :=
  mkWorld (heap_of [(1, with_status hot_once "hot")]) [].

(** A later call: the store holds object 2, which fired 'hot', at the
    place where the new snapshot has the fresh object 1. *)
Definition later_call (a : Analysis) : World :=
  mkWorld (heap_of [(1, a); (2, with_status hot_once "hot")]) (one 2).

Definition div := "{{ 1 // indicator_number }}".

(** Two occurrences of one indicator. *)
Definition two (l0 l1 : loc) : Snapshot :=
  [("ex1", [("BTC/USD", [("rsi", [l0; l1])])])].

(** Two hot occurrences that alert always, and a store that knows another
    exchange only. *)
Definition two_hot : World :=
  mkWorld (heap_of [(1, hot_always); (2, hot_always); (3, hot_always)])
    [("ex0", [("ETH/USD", [("macd", [3])])])].

(** A snapshot for the webhook: exchange, market, indicator type,
    indicator, and the list of its occurrences. *)
Definition webhook_tree (lid : nat) : dict (dict (dict (dict nat))) :=
  [("ex1", [("BTC/USD", [("indicators", [("rsi", lid)])])])].

(** An occurrence whose DataFrame has no row. *)
Definition no_rows : Analysis :=
  mkAnalysis (mkConfig ["value"] "always" true) [] None.

(** An occurrence whose signal list is empty; its only row is hot, cold or
    neither. *)
Definition no_signal (freq : string) (hot cold : bool) : Analysis :=
  mkAnalysis (mkConfig [] freq true) [row hot cold] None.

(** A hot occurrence that names a signal its rows do not have. *)
Definition no_column (freq : string) : Analysis :=
  mkAnalysis (mkConfig ["volume"] freq true) [row true false] None.

(** A hot occurrence followed by one without rows, on a first call. *)
Definition hot_then_no_rows : World :=
  mkWorld (heap_of [(1, hot_always); (2, no_rows)]) [].


Definition run (snap : Snapshot) (w : World) : outcome string * World :=
  message_templater Template snap basic w.

End Scenario.

(** ** What a cycle is expected to do, read off the snapshot *)

(** The occurrences of a snapshot in the order the four loops meet them. *)
Definition visits (snap : Snapshot) : list Visit :=
  flat_map (fun ex =>
    flat_map (fun mk =>
      flat_map (fun ind =>
        map (fun ia => mkVisit (fst ex) (fst mk) (fst ind) (fst ia) (snd ia))
          (enumerate (snd ind)))
        (snd mk))
      (snd ex))
    snap.

Definition locs (vs : list Visit) : list loc := map v_loc vs.

Definition has_key (k : string) (r : Row) : bool :=
  match dict_get k r with Some _ => true | None => false end.

(** An occurrence the loop body can process: it names a signal, its
    DataFrame has a row, and the last row has the columns that are read. *)
Definition well_formed (a : Analysis) : bool :=
  match signal (config a), rev (result a) with
  | _ :: _, r :: _ =>
      forallb (fun s => has_key s r) (signal (config a))
      && has_key "is_hot" r && has_key "is_cold" r
  | _, _ => false
  end.

Definition last_row (a : Analysis) : Row :=
  match rev (result a) with r :: _ => r | [] => [] end.

Definition flag (k : string) (r : Row) : bool :=
  match dict_get k r with Some v => truthy v | None => false end.

Definition status_of (r : Row) : string :=
  if flag "is_hot" r then "hot"
  else if flag "is_cold" r then "cold" else "neutral".

(** Neither NaN nor an infinity. *)
Definition finite (x : spec_float) : bool :=
  match x with
  | S754_zero _ | S754_finite _ _ _ => true
  | S754_infinity _ | S754_nan => false
  end.

Definition format_if_float (v : value) : value :=
  match v with VFloat x => VStr (Format.format_8f x) | _ => v end.

Definition context_values (r : Row) (signals : list string) (acc : dict value)
  : dict value :=
  fold_left (fun values s =>
               match dict_get s r with
               | Some v => dict_set s (format_if_float v) values
               | None => values
               end) signals acc.

Definition stored_status_at (w : World) (v : Visit) : string :=
  stored_status w (v_exchange v) (v_market v) (v_indicator v) (v_index v).

Definition current_status (w : World) (v : Visit) : string :=
  status_of (last_row (heap w (v_loc v))).

(** The occurrence is hot or cold, enabled, and not a repeat under 'once'. *)
Definition fires (w : World) (v : Visit) : bool :=
  let a := heap w (v_loc v) in
  (flag "is_hot" (last_row a) || flag "is_cold" (last_row a))
  && alert_enabled (config a)
  && negb ((alert_frequency (config a) =? "once")%string
           && (stored_status_at w v =? current_status w v)%string).

Definition context_of (w : World) (v : Visit) : Context :=
  let a := heap w (v_loc v) in
  mkContext (context_values (last_row a) (signal (config a)) [])
    (v_exchange v) (v_market v) (v_indicator v) (v_index v)
    (mkAnalysis (config a) (result a) (Some (current_status w v)))
    (current_status w v) (stored_status_at w v).

Definition fired (w : World) (vs : list Visit) : list Visit :=
  filter (fires w) vs.

Definition join (texts : list string) : string :=
  fold_right append "" texts.

Definition fire_status (w : World) (h : Heap) (v : Visit) : Heap :=
  if fires w v then set_status (v_loc v) (current_status w v) h else h.

Definition heap_after (w : World) (vs : list Visit) : Heap :=
  fold_left (fire_status w) vs (heap w).

(** The lookup of lines 253-256 finds no 'status' for the occurrence. *)
Definition no_stored_status (w : World) (v : Visit) : bool :=
  match lookup_loc (last_analysis w) (v_exchange v) (v_market v)
          (v_indicator v) (v_index v) with
  | None => true
  | Some l => match status (heap w l) with
              | None => true
              | Some _ => false
              end
  end.

(** [self.last_analysis] as the loops see it (lines 229-230). *)
Definition effective_store (w : World) (new_analysis : Snapshot) : Snapshot :=
  if dict_is_empty (last_analysis w) then new_analysis else last_analysis w.

Definition at_start (w : World) (new_analysis : Snapshot) : World :=
  mkWorld (heap w) (effective_store w new_analysis).

Fixpoint distinct (ls : list loc) : bool :=
  match ls with
  | [] => true
  | l :: ls' => negb (existsb (Nat.eqb l) ls') && distinct ls'
  end.

Fixpoint unique_keys (ks : list string) : bool :=
  match ks with
  | [] => true
  | k :: ks' => negb (existsb (String.eqb k) ks') && unique_keys ks'
  end.

(** The snapshot is a nest of dictionaries: no key twice in any of them. *)
Definition keys_ok (snap : Snapshot) : bool :=
  unique_keys (dict_keys snap)
  && forallb (fun ex =>
       unique_keys (dict_keys (snd ex))
       && forallb (fun mk => unique_keys (dict_keys (snd mk))) (snd ex))
     snap.

(** Whatever the store holds at the place of an occurrence of the snapshot
    is that occurrence's own object or an object outside the snapshot. *)
Definition alias_ok (store : Snapshot) (vs : list Visit) : bool :=
  forallb (fun v =>
    match lookup_loc store (v_exchange v) (v_market v) (v_indicator v)
            (v_index v) with
    | None => true
    | Some l => Nat.eqb l (v_loc v) || negb (existsb (Nat.eqb l) (locs vs))
    end) vs.

(** At every place of the snapshot the store holds the snapshot's own object
    or nothing, as on a first call, where the store is the snapshot. *)
Definition own_or_absent (store : Snapshot) (vs : list Visit) : bool :=
  forallb (fun v =>
    match lookup_loc store (v_exchange v) (v_market v) (v_indicator v)
            (v_index v) with
    | None => true
    | Some l => Nat.eqb l (v_loc v)
    end) vs.


(** A regular cycle: a well-formed snapshot in which no object occurs twice,
    met by a store that shares objects with it only place for place. *)
Definition cycle_ok (w : World) (snap : Snapshot) : bool :=
  keys_ok snap
  && distinct (locs (visits snap))
  && alias_ok (effective_store w snap) (visits snap)
  && forallb (fun v => well_formed (heap w (v_loc v))) (visits snap).

(** ** The notifier configuration, [_validate_required_config] and [__init__] *)

(** A value of the configuration: [None], a string, a boolean, a number or
    a list of strings (the destination addresses of gmail). *)
Inductive setting : Type :=
| SNone
| SStr (s : string)
| SBool (b : bool)
| SInt (z : Z)
| SList (items : list string).

(** [not val] is false on these. *)
Definition setting_truthy (x : setting) : bool :=
  match x with
  | SNone => false
  | SStr s => negb (s =? "")%string
  | SBool b => b
  | SInt z => negb (z =? 0)%Z
  | SList [] => false
  | SList (_ :: _) => true
  end.

(** [notifier_config[notifier]] holds the groups 'required' and 'optional'. *)
Definition Group := dict setting.
Definition NotifierConfig := dict (dict Group).

(** Lines 211-215. *)
Definition validate_required_config (notifier : string)
    (notifier_config : NotifierConfig) : outcome bool :=
  match dict_get notifier notifier_config with
  | None => Raise (KeyError notifier)
  | Some section =>
      match dict_get "required" section with
      | None => Raise (KeyError "required")
      | Some required =>
          Ok (fold_left
                (fun notifier_configured item =>
                   if negb (setting_truthy (snd item)) then false
                   else notifier_configured)
                required true)
      end
  end.

(** [notifier_config[notifier][group][key]] *)
Definition config_item (notifier_config : NotifierConfig)
    (notifier group key : string) : outcome setting :=
  match dict_get notifier notifier_config with
  | None => Raise (KeyError notifier)
  | Some section =>
      match dict_get group section with
      | None => Raise (KeyError group)
      | Some items =>
          match dict_get key items with
          | None => Raise (KeyError key)
          | Some x => Ok x
          end
      end
  end.

(** The six notifiers. *)
Inductive Channel : Type :=
| Twilio | Discord | Slack | Gmail | Telegram | Webhook.

Definition channel_eqb (a b : Channel) : bool :=
  match a, b with
  | Twilio, Twilio | Discord, Discord | Slack, Slack
  | Gmail, Gmail | Telegram, Telegram | Webhook, Webhook => true
  | _, _ => false
  end.

(** The key of a notifier in the configuration. *)
Definition channel_name (c : Channel) : string :=
  match c with
  | Twilio => "twilio"
  | Discord => "discord"
  | Slack => "slack"
  | Gmail => "gmail"
  | Telegram => "telegram"
  | Webhook => "webhook"
  end.

(** The keyword arguments of the client's constructor, in the order they are
    written, each with the group and key it is read from (lines 34-39,
    44-48, 53-55, 60-64, 69-72, 77-81). *)
Definition client_kwargs (c : Channel) : list (string * (string * string)) :=
  match c with
  | Twilio => [("twilio_key", ("required", "key"));
               ("twilio_secret", ("required", "secret"));
               ("twilio_sender_number", ("required", "sender_number"));
               ("twilio_receiver_number", ("required", "receiver_number"))]
  | Discord => [("webhook", ("required", "webhook"));
                ("username", ("required", "username"));
                ("avatar", ("optional", "avatar"))]
  | Slack => [("slack_webhook", ("required", "webhook"))]
  | Gmail => [("username", ("required", "username"));
              ("password", ("required", "password"));
              ("destination_addresses", ("required", "destination_emails"))]
  | Telegram => [("token", ("required", "token"));
                 ("chat_id", ("required", "chat_id"))]
  | Webhook => [("url", ("required", "url"));
                ("username", ("optional", "username"));
                ("password", ("optional", "password"))]
  end.

(** The order of the six blocks of [__init__]. *)
Definition init_order : list Channel :=
  [Twilio; Discord; Slack; Gmail; Telegram; Webhook].

(** A client, as the arguments it was built with.  The constructors are
    code of other modules; they are taken to return. *)
Definition Client := list (string * setting).

(** The attributes of a [Notifier] besides [last_analysis] (kept in the
    world): the configuration, [self.<name>_configured] and
    [self.<name>_client], the latter set for a configured notifier only. *)
Record Notifier : Type := mkNotifier {
  notifier_config : NotifierConfig;
  configured : Channel -> bool;
  client : Channel -> option Client
}.

Definition update {V : Type} (f : Channel -> V) (c : Channel) (x : V)
  : Channel -> V :=
  fun c' => if channel_eqb c' c then x else f c'.

Fixpoint read_kwargs (notifier_config : NotifierConfig) (notifier : string)
    (kwargs : list (string * (string * string))) : outcome Client :=
  match kwargs with
  | [] => Ok []
  | (name, (group, key)) :: rest =>
      match config_item notifier_config notifier group key with
      | Raise e => Raise e
      | Ok x =>
          match read_kwargs notifier_config notifier rest with
          | Raise e => Raise e
          | Ok args => Ok ((name, x) :: args)
          end
      end
  end.

(** One block of [__init__], on the attributes set so far and the list
    [enabled_notifiers]. *)
Definition setup (c : Channel) (st : Notifier * list string)
  : outcome (Notifier * list string) :=
  let self := fst st in
  match validate_required_config (channel_name c) (notifier_config self) with
  | Raise e => Raise e
  | Ok false =>
      Ok (mkNotifier (notifier_config self) (update (configured self) c false)
            (client self), snd st)
  | Ok true =>
      match read_kwargs (notifier_config self) (channel_name c)
              (client_kwargs c) with
      | Raise e => Raise e
      | Ok args =>
          Ok (mkNotifier (notifier_config self)
                (update (configured self) c true)
                (update (client self) c (Some args)),
              snd st ++ [channel_name c])
      end
  end.

Fixpoint setup_all (cs : list Channel) (st : Notifier * list string)
  : outcome (Notifier * list string) :=
  match cs with
  | [] => Ok st
  | c :: cs' =>
      match setup c st with
      | Raise e => Raise e
      | Ok st' => setup_all cs' st'
      end
  end.

(** [Notifier.__init__]: the object, and the list of enabled notifiers that
    line 84 logs.  [self.last_analysis] starts as the empty dictionary. *)
Definition init (notifier_config : NotifierConfig)
  : outcome (Notifier * list string) :=
  setup_all init_order
    (mkNotifier notifier_config (fun _ => false) (fun _ => None), []).

Definition init_last_analysis : Snapshot := [].

(** ** The templated notifiers and [notify_all] *)

(** A character that [str.strip] removes, for characters below 256. *)
Definition is_space (c : ascii) : bool :=
  let n := nat_of_ascii c in
  ((9 <=? n) && (n <=? 13) || (28 <=? n) && (n <=? 32)
   || (n =? 133) || (n =? 160))%nat.

(** [not message.strip()] *)
Fixpoint blank (message : string) : bool :=
  match message with
  | EmptyString => true
  | String c rest => is_space c && blank rest
  end.

(** The world, and the calls [client.notify(message)] made so far on the
    clients, which are code of other modules and are taken to return. *)
Record Service : Type := mkService {
  world : World;
  outbox : list (Channel * string)
}.

Section Dispatch.
Variable Template : string -> outcome renderer.

(** [self._message_templater(new_analysis, template)] for a template read
    from the configuration: the template engine refuses what is not a
    string. *)
Definition templater_on (template : setting) (new_analysis : Snapshot)
  : M string :=
  match template with
  | SStr t => message_templater Template new_analysis t
  | _ => message_templater (fun _ => Raise TemplateError) new_analysis ""
  end.

(** [notify_discord], [notify_slack], [notify_twilio], [notify_gmail] and
    [notify_telegram] (lines 102-179), which differ in the notifier only. *)
Definition notify_text (self : Notifier) (c : Channel)
    (new_analysis : Snapshot) (sv : Service) : outcome unit * Service :=
  if configured self c then
    match config_item (notifier_config self) (channel_name c) "optional"
            "template" with
    | Raise e => (Raise e, sv)
    | Ok template =>
        match templater_on template new_analysis (world sv) with
        | (Raise e, w') => (Raise e, mkService w' (outbox sv))
        | (Ok message, w') =>
            if blank message then (Ok tt, mkService w' (outbox sv))
            else (Ok tt, mkService w' (outbox sv ++ [(c, message)]))
        end
    end
  else (Ok tt, sv).

Definition notify_slack (self : Notifier) := notify_text self Slack.
Definition notify_discord (self : Notifier) := notify_text self Discord.
Definition notify_twilio (self : Notifier) := notify_text self Twilio.
Definition notify_gmail (self : Notifier) := notify_text self Gmail.
Definition notify_telegram (self : Notifier) := notify_text self Telegram.

(** The order of lines 94-98. *)
Definition text_order : list Channel :=
  [Slack; Discord; Twilio; Gmail; Telegram].

Fixpoint notify_each (self : Notifier) (cs : list Channel)
    (new_analysis : Snapshot) (sv : Service) : outcome unit * Service :=
  match cs with
  | [] => (Ok tt, sv)
  | c :: cs' =>
      match notify_text self c new_analysis sv with
      | (Raise e, sv') => (Raise e, sv')
      | (Ok _, sv') => notify_each self cs' new_analysis sv'
      end
  end.

(** Lines 94-98 of [notify_all]: the five templated notifiers in turn.  The
    webhook notifier, called last (line 99), is not part of this. *)
Definition notify_all_texts (self : Notifier) (new_analysis : Snapshot)
    (sv : Service) : outcome unit * Service :=
  notify_each self text_order new_analysis sv.

End Dispatch.

(** ** [notify_webhook] *)

Module Webhook.

(** What a list of an indicator holds: the [analysis] dictionaries, and
    after the flattening the records that replaced them. *)
Inductive Entry : Type :=
| Occurrence (analysis : Analysis)
| Record_ (row : Row).

(** The lists are written in place (line 195), so they live in a store of
    their own, addressed by identifiers; two places of a snapshot share a
    list when they hold the same identifier. *)
Definition ListId := nat.
Definition Lists := ListId -> list Entry.

(** exchange -> market -> indicator type -> indicator -> list *)
Definition Tree := dict (dict (dict (dict ListId))).

Inductive error : Type :=
| KeyError_ (key : string)
| IndexError_
| AttributeError.

(** [analysis['result'].to_dict(orient='records')[-1]]: the last row of the
    DataFrame as a record.  A record that already replaced its occurrence
    has no DataFrame under 'result'. *)
Definition last_record (analysis : Entry) : error + Row :=
  match analysis with
  | Occurrence a =>
      match rev (result a) with
      | [] => inl IndexError_
      | row :: _ => inr row
      end
  | Record_ row =>
      match dict_get "result" row with
      | None => inl (KeyError_ "result")
      | Some _ => inl AttributeError
      end
  end.

(** [l[index] = x] for an index within the list. *)
Fixpoint set_nth {X : Type} (index : nat) (x : X) (l : list X) : list X :=
  match l, index with
  | [], _ => []
  | _ :: rest, O => x :: rest
  | y :: rest, S index' => y :: set_nth index' x rest
  end.

Definition store (lid : ListId) (l : list Entry) (lists : Lists) : Lists :=
  fun lid' => if Nat.eqb lid' lid then l else lists lid'.

(** Lines 194-195 for one list: the entries are read from the list as it is
    when their turn comes. *)
Fixpoint flatten_list (lid : ListId) (indices : list nat) (lists : Lists)
  : option error * Lists :=
  match indices with
  | [] => (None, lists)
  | index :: rest =>
      match nth_error (lists lid) index with
      | None => (None, lists)
      | Some analysis =>
          match last_record analysis with
          | inl e => (Some e, lists)
          | inr row =>
              flatten_list lid rest
                (store lid (set_nth index (Record_ row) (lists lid)) lists)
          end
      end
  end.

(** A loop that stops at the first error. *)
Fixpoint each {X : Type} (xs : list X) (body : X -> Lists -> option error * Lists)
    (lists : Lists) : option error * Lists :=
  match xs with
  | [] => (None, lists)
  | x :: xs' =>
      match body x lists with
      | (Some e, lists') => (Some e, lists')
      | (None, lists') => each xs' body lists'
      end
  end.

(** Lines 190-195. *)
Definition flatten (new_analysis : Tree) (lists : Lists)
  : option error * Lists :=
  each new_analysis (fun exchange =>
    each (snd exchange) (fun market =>
      each (snd market) (fun indicator_type =>
        each (snd indicator_type) (fun indicator lists =>
          flatten_list (snd indicator)
            (seq 0 (List.length (lists (snd indicator)))) lists))))
    lists.

(** What the webhook client is handed: the snapshot with its lists as they
    are at that moment. *)
Definition Payload := dict (dict (dict (dict (list Entry)))).

Definition resolve (new_analysis : Tree) (lists : Lists) : Payload :=
  map (fun exchange =>
    (fst exchange,
     map (fun market =>
       (fst market,
        map (fun indicator_type =>
          (fst indicator_type,
           map (fun indicator => (fst indicator, lists (snd indicator)))
             (snd indicator_type)))
          (snd market)))
       (snd exchange)))
    new_analysis.

(** [notify_webhook] (lines 189-197): the error raised, if any, the lists
    afterwards, and the payloads handed to the client so far. *)
Definition notify_webhook (webhook_configured : bool) (new_analysis : Tree)
    (lists : Lists) (sent : list Payload)
  : option error * Lists * list Payload :=
  if webhook_configured then
    match flatten new_analysis lists with
    | (Some e, lists') => (Some e, lists', sent)
    | (None, lists') => (None, lists', sent ++ [resolve new_analysis lists'])
    end
  else (None, lists, sent).

(** The lists of a snapshot in the order the loops meet them. *)
Definition places (new_analysis : Tree) : list ListId :=
  flat_map (fun exchange =>
    flat_map (fun market =>
      flat_map (fun indicator_type => map snd (snd indicator_type))
        (snd market))
      (snd exchange))
    new_analysis.

(** An occurrence with at least one row. *)
Definition has_rows (e : Entry) : bool :=
  match e with
  | Occurrence a => match result a with [] => false | _ :: _ => true end
  | Record_ _ => false
  end.

(** The record that replaces an occurrence. *)
Definition flat (e : Entry) : Entry :=
  match e with
  | Occurrence a => Record_ (last_row a)
  | Record_ row => Record_ row
  end.

End Webhook.

(** ** A concrete configuration *)

Module Setup.

(** A configuration with slack and discord set up and the rest left
    empty. *)
Definition unset (keys : list string) : Group :=
  map (fun k => (k, SStr "")) keys.

Definition config : NotifierConfig :=
  [("twilio", [("required", unset ["key"; "secret"; "sender_number";
                                   "receiver_number"]);
               ("optional", [("template", SStr Scenario.basic)])]);
   ("discord", [("required", [("webhook", SStr "https://discord.example/hook");
                              ("username", SStr "signal")]);
                ("optional", [("avatar", SNone);
                              ("template", SStr Scenario.basic)])]);
   ("slack", [("required", [("webhook", SStr "https://slack.example/hook")]);
              ("optional", [("template", SStr Scenario.basic)])]);
   ("gmail", [("required", [("username", SStr ""); ("password", SStr "");
                            ("destination_emails", SList [])]);
              ("optional", [("template", SStr Scenario.basic)])]);
   ("telegram", [("required", unset ["token"; "chat_id"]);
                 ("optional", [("template", SStr Scenario.basic)])]);
   ("webhook", [("required", [("url", SNone)]);
                ("optional", [("username", SNone); ("password", SNone)])])].

(** The same with the 'required' group of telegram emptied. *)
Definition config_emptied : NotifierConfig :=
  dict_set "telegram" [("required", []); ("optional", [])] config.

End Setup.

(** Every value of the 'required' group of the notifier is truthy. *)
Definition required_all_set (cfg : NotifierConfig) (c : Channel) : bool :=
  match dict_get (channel_name c) cfg with
  | None => false
  | Some section =>
      match dict_get "required" section with
      | None => false
      | Some required => forallb (fun item => setting_truthy (snd item)) required
      end
  end.

Definition has_item (cfg : NotifierConfig) (notifier group key : string)
  : bool :=
  match dict_get notifier cfg with
  | None => false
  | Some section =>
      match dict_get group section with
      | None => false
      | Some items =>
          match dict_get key items with Some _ => true | None => false end
      end
  end.

(** What [__init__] needs of the section of a notifier: the section and
    its 'required' group are there, and when every required value is set,
    so is every key the client is built from. *)
Definition usable (cfg : NotifierConfig) (c : Channel) : bool :=
  match dict_get (channel_name c) cfg with
  | None => false
  | Some section =>
      match dict_get "required" section with
      | None => false
      | Some required =>
          if forallb (fun item => setting_truthy (snd item)) required
          then forallb (fun kw => has_item cfg (channel_name c)
                                    (fst (snd kw)) (snd (snd kw)))
                 (client_kwargs c)
          else true
      end
  end.

(** [xs] is [ys] with some elements left out. *)
Inductive subsequence {A : Type} : list A -> list A -> Prop :=
| subsequence_nil : subsequence [] []
| subsequence_skip (y : A) (xs ys : list A) :
    subsequence xs ys -> subsequence xs (y :: ys)
| subsequence_take (x : A) (xs ys : list A) :
    subsequence xs ys -> subsequence (x :: xs) (x :: ys).

(** Nothing of the snapshot would fire, and the store holds the objects of
    the snapshot at their places: the state a call on it leaves behind when
    every frequency is 'once'. *)
Definition settled (w : World) (snap : Snapshot) : Prop :=
  cycle_ok w snap = true
  /\ forall v, In v (visits snap) ->
       fires (at_start w snap) v = false
       /\ lookup_loc (effective_store w snap) (v_exchange v) (v_market v)
            (v_indicator v) (v_index v) = Some (v_loc v).

(** The template of a configured notifier is a string of the configuration
    that compiles and renders. *)
Definition ready (Template : string -> outcome renderer) (self : Notifier)
    (tpl : Channel -> string) (rd : Channel -> renderer)
    (r : Channel -> Context -> string) (c : Channel) : Prop :=
  config_item (notifier_config self) (channel_name c) "optional" "template"
  = Ok (SStr (tpl c))
  /\ Template (tpl c) = Ok (rd c)
  /\ forall ctx, rd c ctx = Ok (r c ctx).

(** What the loop body raises on an occurrence that names a signal, if
    anything: no row (line 240), a signal that is not a column (line 242),
    no [is_hot] column (line 247), or a row that is not hot and has no
    [is_cold] column (line 249). *)
Definition defect (a : Analysis) : option exn :=
  match signal (config a) with
  | [] => None
  | _ :: _ =>
      match rev (result a) with
      | [] => Some IndexError
      | row :: _ =>
          match find (fun s => negb (has_key s row)) (signal (config a)) with
          | Some s => Some (KeyError s)
          | None =>
              if has_key "is_hot" row
              then if flag "is_hot" row then None
                   else if has_key "is_cold" row then None
                        else Some (KeyError "is_cold")
              else Some (KeyError "is_hot")
          end
      end
  end.

(** Hot or cold, and enabled. *)
Definition alerting (w : World) (v : Visit) : bool :=
  (flag "is_hot" (last_row (heap w (v_loc v)))
   || flag "is_cold" (last_row (heap w (v_loc v))))
  && alert_enabled (config (heap w (v_loc v))).

(** Two worlds that the remaining occurrences cannot tell apart. *)
Definition agree (vs : list Visit) (w w1 : World) : Prop :=
  forall v, In v vs ->
    heap w1 (v_loc v) = heap w (v_loc v)
    /\ stored_status_at w1 v = stored_status_at w v.

(** The 'status' entry of a record as lines 253-256 read it: the empty
    string when the record has none. *)
Definition status_text (a : Analysis) : string :=
  match status a with Some s => s | None => "" end.

(** The place of [v], with the object [l] at it. *)
Definition at_place (v : Visit) (l : loc) : Visit :=
  mkVisit (v_exchange v) (v_market v) (v_indicator v) (v_index v) l.

(** The loop has processed the occurrences [pre] of the snapshot without an
    exception and is about to process the next one, with the variables
    [locals] in the world [wv]. *)
Definition reaches (rd : renderer) (w : World) (snap : Snapshot)
    (pre : list Visit) (locals : Locals) (wv : World) : Prop :=
  for_each pre (process_analysis rd) (mkLocals None "") (at_start w snap)
  = (Ok locals, wv).

(** An alert for the occurrence (lines 266-277): its status is written,
    the template is rendered on its context, and the text is appended to
    the message, unless the rendering raises. *)
Definition alert_step (rd : renderer) (v : Visit) (locals : Locals)
    (w : World) : outcome Locals * World :=
  let w1 := mkWorld (set_status (v_loc v) (current_status w v) (heap w))
              (last_analysis w) in
  match rd (context_of w v) with
  | Ok text =>
      (Ok (mkLocals (Some (last_row (heap w (v_loc v))))
             (new_message locals ++ text)%string), w1)
  | Raise e => (Raise e, w1)
  end.

(** No alert for the occurrence: the message and the world stay as they
    are. *)
Definition quiet_step (v : Visit) (locals : Locals) (w : World)
  : outcome Locals * World :=
  (Ok (mkLocals (Some (last_row (heap w (v_loc v)))) (new_message locals)), w).

(** The call from the step on one occurrence onwards: the loop over the
    occurrences after it and the merge of line 280, or the exception. *)
Definition rest_of_call (rd : renderer) (snap : Snapshot) (post : list Visit)
    (step : outcome Locals * World) : outcome string * World :=
  match step with
  | (Raise e, w1) => (Raise e, w1)
  | (Ok locals1, w1) =>
      match for_each post (process_analysis rd) locals1 w1 with
      | (Raise e, w2) => (Raise e, w2)
      | (Ok locals2, w2) =>
          (Ok (new_message locals2),
           mkWorld (heap w2) (dict_merge (last_analysis w2) snap))
      end
  end.


(** * Properties *)

(** ** Formatting *)

Module FormatFacts.
Import Format.

#[local] Arguments digit : simpl never.
#[local] Arguments is_digit : simpl never.

Lemma is_digit_digit (n : Z) : (0 <= n < 10)%Z -> is_digit (digit n) = true.
Proof.
  intros Hn. unfold is_digit, digit.
  rewrite nat_ascii_embedding by lia.
  apply andb_true_intro; split; apply Nat.leb_le; lia.
Qed.

Lemma mod10_range (n : Z) : (0 <= n mod 10 < 10)%Z.
Proof. apply Z.mod_pos_bound; lia. Qed.

Lemma all_digits_app (a b : string) :
  all_digits (a ++ b) = all_digits a && all_digits b.
Proof.
  induction a as [|c a IH]; simpl; [reflexivity|].
  rewrite IH. apply andb_assoc.
Qed.

Lemma append_cons_assoc (ds : string) (c : ascii) (acc : string) :
  (ds ++ String c acc = (ds ++ String c EmptyString) ++ acc)%string.
Proof.
  induction ds as [|d ds IH]; cbn [append]; [reflexivity|].
  now rewrite IH.
Qed.

Lemma digits_fuel_shape (fuel : nat) :
  forall n acc, exists ds,
    digits_fuel fuel n acc = (ds ++ acc)%string /\ all_digits ds = true
    /\ (fuel <> O -> ds <> EmptyString).
Proof.
  induction fuel as [|fuel IH]; intros n acc; cbn [digits_fuel].
  - exists EmptyString. repeat split; auto.
  - destruct (n / 10 =? 0)%Z.
    + exists (String (digit (n mod 10)) EmptyString).
      cbn [append all_digits].
      rewrite is_digit_digit by apply mod10_range.
      repeat split; discriminate.
    + destruct (IH (n / 10)%Z (String (digit (n mod 10)) acc))
        as (ds & Heq & Hall & _).
      exists (ds ++ String (digit (n mod 10)) EmptyString)%string.
      rewrite Heq. repeat split.
      * apply append_cons_assoc.
      * rewrite all_digits_app, Hall. cbn [all_digits].
        now rewrite is_digit_digit by apply mod10_range.
      * intros _. destruct ds; discriminate.
Qed.

Lemma length_snoc (ds : string) (c : ascii) :
  String.length (ds ++ String c EmptyString) = S (String.length ds).
Proof.
  induction ds as [|d ds IH]; cbn [append String.length]; congruence.
Qed.

Lemma fixed_digits_shape (k : nat) :
  forall n acc, exists ds,
    fixed_digits k n acc = (ds ++ acc)%string /\ all_digits ds = true
    /\ String.length ds = k.
Proof.
  induction k as [|k IH]; intros n acc; cbn [fixed_digits].
  - exists EmptyString. auto.
  - destruct (IH (n / 10)%Z (String (digit (n mod 10)) acc))
      as (ds & Heq & Hall & Hlen).
    exists (ds ++ String (digit (n mod 10)) EmptyString)%string.
    rewrite Heq. repeat split.
    + apply append_cons_assoc.
    + rewrite all_digits_app, Hall. cbn [all_digits].
      now rewrite is_digit_digit by apply mod10_range.
    + rewrite length_snoc. congruence.
Qed.

Lemma point_then_8_app (ip fp : string) :
  all_digits ip = true -> all_digits fp = true -> String.length fp = 8 ->
  forall seen, (seen = true \/ ip <> EmptyString) ->
  point_then_8 (ip ++ String "." fp) seen = true.
Proof.
  intros Hip Hfp Hlen.
  induction ip as [|c ip IH]; intros seen Hseen; cbn [append point_then_8].
  - destruct Hseen as [-> | Hne]; [|congruence].
    rewrite Hfp, Hlen. reflexivity.
  - cbn [all_digits] in Hip. apply andb_prop in Hip as [Hc Hip].
    rewrite Hc. apply IH; auto.
Qed.

Lemma append_nil_r (x : string) : (x ++ "")%string = x.
Proof. induction x as [|c x IHx]; cbn [append]; congruence. Qed.

Lemma fixed_8_ok (s : bool) (n : Z) : is_fixed_8 (fixed_8 s n) = true.
Proof.
  unfold fixed_8, decimal.
  destruct (digits_fuel_shape (S (Z.to_nat (Z.log2 (n / 10 ^ 8))))
              (n / 10 ^ 8) EmptyString) as (ip & Hip & Hall & Hne).
  destruct (fixed_digits_shape 8 (n mod 10 ^ 8) EmptyString)
    as (fp & Hfp & Hfall & Hlen).
  rewrite Hip, Hfp, !append_nil_r.
  assert (Hnz : ip <> EmptyString) by (apply Hne; discriminate).
  assert (Hgo : point_then_8 (ip ++ String "." fp) false = true)
    by (apply point_then_8_app; auto).
  destruct s; cbn [sign_string append is_fixed_8].
  - exact Hgo.
  - destruct ip as [|c ip]; [congruence|]. cbn [append all_digits] in *.
    apply andb_prop in Hall as [Hc _]. unfold is_fixed_8.
    destruct (Ascii.eqb_spec c "-") as [-> | _]; [discriminate Hc|].
    exact Hgo.
Qed.

End FormatFacts.

(** ** Dictionaries *)

Section DictFacts.
Context {V : Type}.
Implicit Types (d a b : dict V) (k : string).

Lemma dict_get_set k k' (v : V) d :
  dict_get k (dict_set k' v d)
  = if (k' =? k)%string then Some v else dict_get k d.
Proof.
  induction d as [|[k0 v0] d IH]; cbn [dict_set dict_get].
  - destruct (String.eqb_spec k' k); reflexivity.
  - destruct (String.eqb_spec k0 k') as [-> | Hne]; cbn [dict_get].
    + destruct (String.eqb_spec k' k); reflexivity.
    + rewrite IH. destruct (String.eqb_spec k0 k) as [-> | Hne'].
      * destruct (String.eqb_spec k' k); [congruence | reflexivity].
      * reflexivity.
Qed.

Lemma dict_get_absent k d :
  existsb (String.eqb k) (dict_keys d) = false -> dict_get k d = None.
Proof.
  induction d as [|[k0 v0] d IH]; cbn [dict_keys map existsb dict_get fst];
    [reflexivity|].
  intros H. apply orb_false_elim in H as [H1 H2].
  rewrite String.eqb_sym, H1. apply IH, H2.
Qed.

Lemma dict_get_in k (v : V) d :
  unique_keys (dict_keys d) = true -> In (k, v) d -> dict_get k d = Some v.
Proof.
  induction d as [|[k0 v0] d IH];
    cbn [dict_keys map unique_keys dict_get fst In]; [tauto|].
  intros Hu [Heq | Hin].
  - inversion Heq; subst. now rewrite String.eqb_refl.
  - apply andb_prop in Hu as [Hfresh Hu].
    destruct (String.eqb_spec k0 k) as [-> | Hne]; [|auto].
    apply negb_true_iff in Hfresh.
    rewrite (dict_get_absent _ _ Hfresh) in IH.
    specialize (IH Hu Hin). discriminate.
Qed.

Lemma dict_get_merge k a b :
  unique_keys (dict_keys b) = true ->
  dict_get k (dict_merge a b)
  = match dict_get k b with
    | Some v => Some v
    | None => dict_get k a
    end.
Proof.
  unfold dict_merge. revert a.
  induction b as [|[k0 v0] b IH]; intros a Hu;
    cbn [fold_left dict_get fst snd]; [reflexivity|].
  cbn [dict_keys map unique_keys fst] in Hu.
  apply andb_prop in Hu as [Hfresh Hu]. apply negb_true_iff in Hfresh.
  rewrite (IH _ Hu), dict_get_set.
  destruct (String.eqb_spec k0 k) as [-> | Hne]; [|reflexivity].
  now rewrite (dict_get_absent _ _ Hfresh).
Qed.
End DictFacts.

(** ** The loops *)

Lemma for_each_app {X S} (xs ys : list X) (body : X -> S -> M S) s w :
  for_each (xs ++ ys) body s w
  = match for_each xs body s w with
    | (Ok s', w') => for_each ys body s' w'
    | (Raise e, w') => (Raise e, w')
    end.
Proof.
  revert s w. induction xs as [|x xs IH]; intros s w;
    cbn [app for_each]; [reflexivity|].
  unfold bind. destruct (body x s w) as [[s'|e] w']; [apply IH | reflexivity].
Qed.

Lemma for_each_ext {X S} (xs : list X) (f g : X -> S -> M S) :
  (forall x s w, In x xs -> f x s w = g x s w) ->
  forall s w, for_each xs f s w = for_each xs g s w.
Proof.
  induction xs as [|x xs IH]; intros H s w; cbn [for_each]; [reflexivity|].
  unfold bind. rewrite H by (left; reflexivity).
  destruct (g x s w) as [[s'|e] w']; [|reflexivity].
  apply IH. intros; apply H; right; assumption.
Qed.

Lemma for_each_flat_map {X Y S} (f : X -> list Y) (xs : list X)
    (body : Y -> S -> M S) s w :
  for_each (flat_map f xs) body s w
  = for_each xs (fun x s => for_each (f x) body s) s w.
Proof.
  revert s w. induction xs as [|x xs IH]; intros s w;
    cbn [flat_map for_each]; [reflexivity|].
  rewrite for_each_app. unfold bind.
  destruct (for_each (f x) body s w) as [[s'|e] w']; [apply IH | reflexivity].
Qed.

Lemma for_each_map {X Y S} (f : X -> Y) (xs : list X)
    (body : Y -> S -> M S) s w :
  for_each (map f xs) body s w = for_each xs (fun x s => body (f x) s) s w.
Proof.
  revert s w. induction xs as [|x xs IH]; intros s w;
    cbn [map for_each]; [reflexivity|].
  unfold bind. destruct (body (f x) s w) as [[s'|e] w'];
    [apply IH | reflexivity].
Qed.

(** The four nested loops visit [visits new_analysis] in order. *)
Lemma nested_loops_visits (rd : renderer) (snap : Snapshot) locals w :
  for_each snap (fun ex locals =>
    for_each (snd ex) (fun mk locals =>
      for_each (snd mk) (fun ind locals =>
        for_each (enumerate (snd ind)) (fun ia locals =>
          process_analysis rd
            (mkVisit (fst ex) (fst mk) (fst ind) (fst ia) (snd ia)) locals)
          locals)
        locals)
      locals)
    locals w
  = for_each (visits snap) (process_analysis rd) locals w.
Proof.
  unfold visits. rewrite for_each_flat_map.
  apply for_each_ext; intros ex s1 w1 _.
  rewrite for_each_flat_map.
  apply for_each_ext; intros mk s2 w2 _.
  rewrite for_each_flat_map.
  apply for_each_ext; intros ind s3 w3 _.
  now rewrite for_each_map.
Qed.

(** ** One occurrence *)

Lemma signal_loop_ok (a : Analysis) (r : Row) (older : list Row)
    (signals : list string) :
  rev (result a) = r :: older ->
  forallb (fun s => has_key s r) signals = true ->
  forall values latest,
    signal_loop a signals values latest
    = Ok (context_values r signals values,
          match signals with [] => latest | _ :: _ => Some r end).
Proof.
  intros Hrev. induction signals as [|s signals IH]; intros Hall values latest;
    cbn [signal_loop context_values fold_left]; [reflexivity|].
  cbn [forallb] in Hall. apply andb_prop in Hall as [Hs Hall].
  unfold iloc_last, row_item. rewrite Hrev.
  unfold has_key in Hs. destruct (dict_get s r) as [x|]; [|discriminate].
  rewrite (IH Hall). unfold context_values, format_if_float.
  destruct signals; reflexivity.
Qed.

Lemma classify_ok (r : Row) :
  has_key "is_hot" r = true -> has_key "is_cold" r = true ->
  classify r = Ok (status_of r).
Proof.
  unfold has_key, classify, status_of, flag, row_item. intros Hh Hc.
  destruct (dict_get "is_hot" r) as [h|]; [|discriminate].
  destruct (dict_get "is_cold" r) as [c|]; [|discriminate].
  destruct (truthy h), (truthy c); reflexivity.
Qed.

Lemma alert_worthy_ok (r : Row) :
  has_key "is_hot" r = true -> has_key "is_cold" r = true ->
  alert_worthy r = Ok (flag "is_hot" r || flag "is_cold" r).
Proof.
  unfold has_key, alert_worthy, flag, row_item. intros Hh Hc.
  destruct (dict_get "is_hot" r) as [h|]; [|discriminate].
  destruct (dict_get "is_cold" r) as [c|]; [|discriminate].
  destruct (truthy h), (truthy c); reflexivity.
Qed.

(** [latest_result] is bound inside the loop over the signals (line 240):
    an occurrence that names no signal is classified by the row an earlier
    occurrence left there, and raises when it is the first. *)
Lemma no_signal_first_occurrence_raises (rd : renderer) (v : Visit) (w : World) :
  signal (config (heap w (v_loc v))) = [] ->
  fst (process_analysis rd v (mkLocals None "") w) = Raise UnboundLocalError.
Proof.
  intros Hsig. unfold process_analysis, bind, read, lift.
  rewrite Hsig. reflexivity.
Qed.

Lemma should_alert_fires (c : Config) (last current : string) :
  should_alert c last current
  = alert_enabled c
    && negb ((alert_frequency c =? "once")%string && (last =? current)%string).
Proof.
  unfold should_alert.
  destruct (alert_enabled c), (alert_frequency c =? "once")%string,
    (last =? current)%string; reflexivity.
Qed.

(** The loop body on a well-formed occurrence, in closed form. *)
Lemma process_analysis_ok (rd : renderer) (v : Visit) (locals : Locals)
    (w : World) :
  well_formed (heap w (v_loc v)) = true ->
  process_analysis rd v locals w
  = if fires w v then
      let w1 := mkWorld (set_status (v_loc v) (current_status w v) (heap w))
                  (last_analysis w) in
      match rd (context_of w v) with
      | Ok text =>
          (Ok (mkLocals (Some (last_row (heap w (v_loc v))))
                 (new_message locals ++ text)%string), w1)
      | Raise e => (Raise e, w1)
      end
    else (Ok (mkLocals (Some (last_row (heap w (v_loc v))))
                (new_message locals)), w).
Proof.
  intros Hwf. unfold well_formed in Hwf.
  unfold process_analysis, fires, context_of, current_status, last_row,
    stored_status_at.
  unfold bind at 1. unfold read at 1. cbn beta iota.
  destruct (signal (config (heap w (v_loc v)))) as [|s0 signals] eqn:Hsig;
    [discriminate|].
  destruct (rev (result (heap w (v_loc v)))) as [|r older] eqn:Hrev;
    [discriminate|].
  apply andb_prop in Hwf as [Hwf Hcold]. apply andb_prop in Hwf as [Hall Hhot].
  unfold bind at 1, lift at 1.
  rewrite (signal_loop_ok _ _ _ _ Hrev Hall). cbn beta iota.
  unfold bind at 1, lift at 1. cbn [snd fst].
  unfold bind at 1, lift at 1. rewrite (classify_ok _ Hhot Hcold).
  unfold bind at 1, lift at 1. rewrite (alert_worthy_ok _ Hhot Hcold).
  cbn beta iota. rewrite <- andb_assoc.
  destruct (flag "is_hot" r || flag "is_cold" r); cbn [andb]; [|reflexivity].
  unfold bind at 1, get_last_status at 1. cbn beta iota.
  rewrite should_alert_fires.
  destruct (alert_enabled (config (heap w (v_loc v)))
            && negb ((alert_frequency (config (heap w (v_loc v))) =? "once")%string
                     && (stored_status w (v_exchange v) (v_market v)
                           (v_indicator v) (v_index v) =? status_of r)%string));
    [|reflexivity].
  unfold bind, write_status, read, lift, ret. cbn [heap last_analysis].
  unfold set_status at 1. rewrite Nat.eqb_refl.
  destruct (rd _) as [text|e]; reflexivity.
Qed.

(** Whatever the occurrence and the renderer, the body leaves the store
    alone and writes at most the status of the object it visits. *)
Lemma process_analysis_frame (rd : renderer) (v : Visit) (locals : Locals)
    (w : World) :
  last_analysis (snd (process_analysis rd v locals w)) = last_analysis w
  /\ (heap (snd (process_analysis rd v locals w)) = heap w
      \/ exists s,
           heap (snd (process_analysis rd v locals w))
           = set_status (v_loc v) s (heap w)).
Proof.
  unfold process_analysis, bind, read, lift, get_last_status, write_status, ret.
  repeat match goal with
         | |- context [match ?x with _ => _ end] => destruct x
         end; cbn [snd heap last_analysis]; eauto.
Qed.

(** ** The heap under status writes *)

Lemma set_status_same (l : loc) (s : string) (h : Heap) :
  set_status l s h l = mkAnalysis (config (h l)) (result (h l)) (Some s).
Proof. unfold set_status. now rewrite Nat.eqb_refl. Qed.

Lemma set_status_other (l l' : loc) (s : string) (h : Heap) :
  l' <> l -> set_status l s h l' = h l'.
Proof.
  intros Hne. unfold set_status.
  destruct (Nat.eqb_spec l' l); [contradiction | reflexivity].
Qed.

Lemma set_status_config (l l' : loc) (s : string) (h : Heap) :
  config (set_status l s h l') = config (h l')
  /\ result (set_status l s h l') = result (h l').
Proof.
  unfold set_status. destruct (Nat.eqb_spec l' l) as [-> | _]; auto.
Qed.

Lemma well_formed_set_status (l l' : loc) (s : string) (h : Heap) :
  well_formed (set_status l s h l') = well_formed (h l').
Proof.
  unfold well_formed.
  destruct (set_status_config l l' s h) as [-> ->]. reflexivity.
Qed.

Lemma existsb_eqb_in (l : loc) (ls : list loc) :
  existsb (Nat.eqb l) ls = true <-> In l ls.
Proof.
  rewrite existsb_exists. split.
  - intros (x & Hin & Heq). apply Nat.eqb_eq in Heq. now subst.
  - intros Hin. exists l. split; [assumption | apply Nat.eqb_refl].
Qed.

Lemma distinct_cons (l : loc) (ls : list loc) :
  distinct (l :: ls) = true <-> ~ In l ls /\ distinct ls = true.
Proof.
  cbn [distinct]. rewrite andb_true_iff, negb_true_iff.
  rewrite <- existsb_eqb_in. destruct (existsb (Nat.eqb l) ls); intuition congruence.
Qed.

Lemma fold_fire_other (w : World) (vs : list Visit) (l : loc) :
  ~ In l (locs vs) ->
  forall h, fold_left (fire_status w) vs h l = h l.
Proof.
  induction vs as [|v vs IH]; intros Hnot h; cbn [fold_left];
    [reflexivity|].
  cbn [locs map In] in Hnot.
  rewrite IH by (intros Hin; apply Hnot; right; exact Hin).
  unfold fire_status. destruct (fires w v); [|reflexivity].
  apply set_status_other. intros ->. apply Hnot. left; reflexivity.
Qed.

Lemma fold_fire_at (w : World) (vs : list Visit) (v : Visit) :
  In v vs -> distinct (locs vs) = true ->
  forall h,
    fold_left (fire_status w) vs h (v_loc v)
    = if fires w v
      then mkAnalysis (config (h (v_loc v))) (result (h (v_loc v)))
             (Some (current_status w v))
      else h (v_loc v).
Proof.
  induction vs as [|v0 vs IH]; intros Hin Hd h; [destruct Hin|].
  cbn [locs map] in Hd. apply distinct_cons in Hd as [Hfresh Hd].
  cbn [fold_left]. destruct Hin as [-> | Hin].
  - rewrite fold_fire_other by exact Hfresh.
    unfold fire_status. destruct (fires w v); [|reflexivity].
    apply set_status_same.
  - rewrite (IH Hin Hd).
    assert (Hne : v_loc v <> v_loc v0).
    { intros Heq. apply Hfresh. rewrite <- Heq. now apply in_map. }
    unfold fire_status at 1 2 3. destruct (fires w v0).
    + now rewrite (set_status_other _ _ _ _ Hne).
    + reflexivity.
Qed.

(** ** The loop over all occurrences *)

Lemma agree_fires (vs : list Visit) (w w1 : World) (v : Visit) :
  agree vs w w1 -> In v vs ->
  fires w1 v = fires w v /\ context_of w1 v = context_of w v
  /\ current_status w1 v = current_status w v.
Proof.
  intros Hag Hin. destruct (Hag v Hin) as [Hh Hs].
  unfold fires, context_of, current_status. rewrite Hh, Hs. auto.
Qed.

Lemma agree_fired (vs : list Visit) (w w1 : World) :
  agree vs w w1 -> fired w1 vs = fired w vs.
Proof.
  intros Hag. unfold fired. apply filter_ext_in.
  intros v Hin. apply (agree_fires vs w w1 v Hag Hin).
Qed.

Lemma agree_fold (vs : list Visit) (w w1 : World) :
  agree vs w w1 ->
  forall h, fold_left (fire_status w1) vs h = fold_left (fire_status w) vs h.
Proof.
  induction vs as [|v vs IH]; intros Hag h; cbn [fold_left]; [reflexivity|].
  assert (Hv : In v (v :: vs)) by (left; reflexivity).
  destruct (agree_fires _ _ _ _ Hag Hv) as (Hf & _ & Hc).
  unfold fire_status at 2 4. rewrite Hf, Hc.
  apply IH. intros v' Hin. apply Hag. right; exact Hin.
Qed.

Lemma alias_ok_cons (store : Snapshot) (v : Visit) (vs : list Visit) :
  alias_ok store (v :: vs) = true ->
  alias_ok store vs = true
  /\ forall v', In v' (v :: vs) ->
       forall l, lookup_loc store (v_exchange v') (v_market v')
                   (v_indicator v') (v_index v') = Some l ->
                 l = v_loc v' \/ ~ In l (locs (v :: vs)).
Proof.
  intros H. unfold alias_ok in H. rewrite forallb_forall in H. split.
  - unfold alias_ok. apply forallb_forall. intros v' Hin.
    specialize (H v' (or_intror Hin)).
    destruct (lookup_loc store _ _ _ _) as [l|]; [|reflexivity].
    apply orb_true_iff in H as [H | H]; [now rewrite H|].
    apply orb_true_iff; right. apply negb_true_iff in H.
    apply negb_true_iff.
    cbn [locs map existsb] in H. apply orb_false_elim in H. apply H.
  - intros v' Hin l Hl. specialize (H v' Hin). rewrite Hl in H.
    apply orb_true_iff in H as [H | H].
    + left. now apply Nat.eqb_eq.
    + right. apply negb_true_iff in H. intros Hc.
      apply existsb_eqb_in in Hc. congruence.
Qed.

(** Writing the status of the visited object is invisible to the later
    occurrences of a regular cycle. *)
Lemma agree_after_write (w : World) (v : Visit) (vs : list Visit) (s : string) :
  distinct (locs (v :: vs)) = true ->
  alias_ok (last_analysis w) (v :: vs) = true ->
  agree vs w (mkWorld (set_status (v_loc v) s (heap w)) (last_analysis w)).
Proof.
  intros Hd Ha v' Hin. cbn [locs map] in Hd.
  apply distinct_cons in Hd as [Hfresh _].
  destruct (alias_ok_cons _ _ _ Ha) as [_ Hlook].
  assert (Hne : v_loc v' <> v_loc v).
  { intros Heq. apply Hfresh. rewrite <- Heq. now apply in_map. }
  split; cbn [heap]; [now apply set_status_other|].
  unfold stored_status_at, stored_status. cbn [heap last_analysis].
  destruct (lookup_loc (last_analysis w) _ _ _ _) as [l|] eqn:Hl;
    [|reflexivity].
  rewrite set_status_other; [reflexivity|].
  destruct (Hlook v' (or_intror Hin) l Hl) as [-> | Hout]; [exact Hne|].
  intros ->. apply Hout. left; reflexivity.
Qed.

Lemma append_assoc (a b c : string) :
  ((a ++ b) ++ c = a ++ (b ++ c))%string.
Proof. induction a as [|x a IH]; cbn [append]; congruence. Qed.

Lemma append_empty_r (a : string) : (a ++ "")%string = a.
Proof. induction a as [|x a IH]; cbn [append]; congruence. Qed.

(** The loop of a regular cycle whose renderings succeed: the renderings of
    the occurrences that fire, in order, and their statuses written. *)
Lemma loop_spec (rd : renderer) (r : Context -> string) (vs : list Visit) :
  forall locals w,
    (forall v, In v vs -> fires w v = true ->
               rd (context_of w v) = Ok (r (context_of w v))) ->
    distinct (locs vs) = true ->
    alias_ok (last_analysis w) vs = true ->
    forallb (fun v => well_formed (heap w (v_loc v))) vs = true ->
    exists latest,
      for_each vs (process_analysis rd) locals w
      = (Ok (mkLocals latest
               (new_message locals
                ++ join (map (fun v => r (context_of w v)) (fired w vs)))%string),
         mkWorld (heap_after w vs) (last_analysis w)).
Proof.
  induction vs as [|v vs IH]; intros locals w Hrd Hd Ha Hwf.
  - exists (latest_result locals). cbn. rewrite append_empty_r.
    destruct locals, w; reflexivity.
  - cbn [forallb] in Hwf. apply andb_prop in Hwf as [Hwfv Hwf].
    cbn [for_each]. unfold bind. rewrite (process_analysis_ok _ _ _ _ Hwfv).
    pose proof (proj1 (alias_ok_cons _ _ _ Ha)) as Ha'.
    assert (Hd' : distinct (locs vs) = true).
    { cbn [locs map] in Hd. now apply distinct_cons in Hd. }
    unfold fired, heap_after. cbn [filter fold_left].
    unfold fire_status at 2.
    destruct (fires w v) eqn:Hf.
    + cbn zeta. rewrite (Hrd v (or_introl eq_refl) Hf).
      set (w1 := mkWorld (set_status (v_loc v) (current_status w v) (heap w))
                   (last_analysis w)).
      pose proof (agree_after_write w v vs (current_status w v) Hd Ha) as Hag.
      fold w1 in Hag.
      destruct (IH (mkLocals (Some (last_row (heap w (v_loc v))))
                      (new_message locals ++ r (context_of w v))%string) w1)
        as [latest Heq]; [ | exact Hd' | exact Ha' | |].
      { intros v' Hin Hf'.
        destruct (agree_fires _ _ _ _ Hag Hin) as (Hfe & Hce & _).
        rewrite Hce. apply Hrd; [right; exact Hin | congruence]. }
      { rewrite forallb_forall in Hwf |- *. intros v' Hin.
        rewrite (proj1 (Hag v' Hin)). now apply Hwf. }
      exists latest. rewrite Heq. unfold heap_after.
      rewrite (agree_fired _ _ _ Hag), (agree_fold _ _ _ Hag).
      assert (Hmap : map (fun v' => r (context_of w1 v')) (fired w vs)
                     = map (fun v' => r (context_of w v')) (fired w vs)).
      { apply map_ext_in. intros v' Hin.
        unfold fired in Hin. apply filter_In in Hin as [Hin _].
        now rewrite (proj1 (proj2 (agree_fires _ _ _ _ Hag Hin))). }
      rewrite Hmap.
      cbn [new_message map join fold_right heap last_analysis].
      rewrite append_assoc. reflexivity.
    + destruct (IH (mkLocals (Some (last_row (heap w (v_loc v))))
                      (new_message locals)) w) as [latest Heq]; auto.
      { intros v' Hin. apply Hrd. right; exact Hin. }
      exists latest. rewrite Heq. reflexivity.
Qed.

(** With well-formed occurrences and a renderer that does not fail the loop
    runs to its end, whatever the sharing of objects. *)
Lemma loop_succeeds (rd : renderer) (vs : list Visit) :
  (forall c, exists text, rd c = Ok text) ->
  forall locals w,
    forallb (fun v => well_formed (heap w (v_loc v))) vs = true ->
    exists locals' w',
      for_each vs (process_analysis rd) locals w = (Ok locals', w')
      /\ last_analysis w' = last_analysis w.
Proof.
  intros Hrd. induction vs as [|v vs IH]; intros locals w Hwf.
  - exists locals, w. split; reflexivity.
  - cbn [forallb] in Hwf. apply andb_prop in Hwf as [Hwfv Hwf].
    cbn [for_each]. unfold bind. rewrite (process_analysis_ok _ _ _ _ Hwfv).
    destruct (fires w v).
    + cbn zeta. destruct (Hrd (context_of w v)) as [text ->].
      destruct (IH (mkLocals (Some (last_row (heap w (v_loc v))))
                      (new_message locals ++ text)%string)
                  (mkWorld (set_status (v_loc v) (current_status w v) (heap w))
                     (last_analysis w))) as (locals' & w' & Heq & Hst).
      { rewrite forallb_forall in Hwf |- *. intros v' Hin. cbn [heap].
        rewrite well_formed_set_status. now apply Hwf. }
      exists locals', w'. split; [exact Heq | exact Hst].
    + apply IH, Hwf.
Qed.

(** In a regular cycle the occurrences still to come see the world as it
    was at the start, whatever was written for the earlier ones. *)
Lemma agree_after_prefix (w : World) (pre rest : list Visit) :
  distinct (locs (pre ++ rest)) = true ->
  alias_ok (last_analysis w) (pre ++ rest) = true ->
  agree rest w (mkWorld (heap_after w pre) (last_analysis w)).
Proof.
  intros Hd Ha v Hin.
  assert (Hout : ~ In (v_loc v) (locs pre)).
  { clear Ha. induction pre as [|p pre IH]; [intros []|].
    cbn [app locs map] in Hd. apply distinct_cons in Hd as [Hfresh Hd].
    intros [Heq | Hin']; [|exact (IH Hd Hin')].
    apply Hfresh. rewrite Heq. unfold locs in *. rewrite map_app.
    apply in_or_app. right. now apply in_map. }
  split; cbn [heap]; [now apply fold_fire_other|].
  unfold stored_status_at, stored_status. cbn [heap last_analysis].
  destruct (lookup_loc (last_analysis w) _ _ _ _) as [l|] eqn:Hl;
    [|reflexivity].
  unfold heap_after. rewrite fold_fire_other; [reflexivity|].
  unfold alias_ok in Ha. rewrite forallb_forall in Ha.
  specialize (Ha v (in_or_app _ _ _ (or_intror Hin))). rewrite Hl in Ha.
  apply orb_true_iff in Ha as [Ha | Ha].
  - apply Nat.eqb_eq in Ha. now subst.
  - apply negb_true_iff in Ha. intros Hc.
    assert (Hin' : In l (locs (pre ++ rest))).
    { unfold locs in *. rewrite map_app. apply in_or_app. now left. }
    apply existsb_eqb_in in Hin'. congruence.
Qed.

(** Whatever the snapshot and the renderer, the loop leaves the store
    alone, never touches [config] or [result], and leaves every object
    outside the snapshot as it was. *)
Lemma loop_frame (rd : renderer) (vs : list Visit) :
  forall locals w,
    let w' := snd (for_each vs (process_analysis rd) locals w) in
    last_analysis w' = last_analysis w
    /\ forall l,
         config (heap w' l) = config (heap w l)
         /\ result (heap w' l) = result (heap w l)
         /\ (~ In l (locs vs) -> heap w' l = heap w l).
Proof.
  induction vs as [|v vs IH]; intros locals w; cbn zeta.
  - cbn. auto.
  - cbn [for_each]. unfold bind.
    pose proof (process_analysis_frame rd v locals w) as [Hst Hheap].
    destruct (process_analysis rd v locals w) as [[locals1|e] w1];
      cbn [snd] in *.
    + specialize (IH locals1 w1). cbn zeta in IH. destruct IH as [IHst IHh].
      split; [congruence|]. intros l. destruct (IHh l) as (Hc & Hr & Hout).
      destruct Hheap as [Heq | [s Heq]].
      * rewrite Hc, Hr, Heq. repeat split; auto.
        intros Hnot. rewrite Hout, Heq; [reflexivity|].
        intros Hin. apply Hnot. right; exact Hin.
      * rewrite Hc, Hr, Heq.
        destruct (set_status_config (v_loc v) l s (heap w)) as [-> ->].
        repeat split; auto.
        intros Hnot. rewrite Hout, Heq.
        -- apply set_status_other. intros ->. apply Hnot. left; reflexivity.
        -- intros Hin. apply Hnot. right; exact Hin.
    + split; [exact Hst|]. intros l.
      destruct Hheap as [Heq | [s Heq]]; rewrite Heq.
      * auto.
      * destruct (set_status_config (v_loc v) l s (heap w)) as [-> ->].
        repeat split; auto.
        intros Hnot. apply set_status_other. intros ->.
        apply Hnot. left; reflexivity.
Qed.

(** ** The whole method *)

Section TemplaterFacts.
Variable Template : string -> outcome renderer.

Lemma templater_unfold (snap : Snapshot) (tpl : string) (w : World) :
  message_templater Template snap tpl w
  = match Template tpl with
    | Raise e => (Raise e, at_start w snap)
    | Ok rd =>
        match for_each (visits snap) (process_analysis rd)
                (mkLocals None "") (at_start w snap) with
        | (Raise e, w') => (Raise e, w')
        | (Ok locals, w') =>
            (Ok (new_message locals),
             mkWorld (heap w') (dict_merge (last_analysis w') snap))
        end
    end.
Proof.
  unfold message_templater, bind at 1, get_last_analysis at 1.
  cbn beta iota. unfold bind at 1.
  assert (Hstart :
    (if dict_is_empty (last_analysis w)
     then set_last_analysis snap else ret tt) w = (Ok tt, at_start w snap)).
  { unfold at_start, effective_store, set_last_analysis, ret.
    destruct (dict_is_empty (last_analysis w)); [reflexivity|].
    destruct w; reflexivity. }
  rewrite Hstart. unfold bind at 1, lift at 1. cbn beta iota.
  destruct (Template tpl) as [rd|e]; [|reflexivity].
  unfold bind at 1. rewrite nested_loops_visits.
  destruct (for_each _ _ _ _) as [[locals|e] w']; [|reflexivity].
  reflexivity.
Qed.

(** A regular cycle with a template that compiles and renders. *)
Lemma templater_spec (snap : Snapshot) (tpl : string) (w : World)
    (rd : renderer) (r : Context -> string) :
  Template tpl = Ok rd ->
  (forall c, rd c = Ok (r c)) ->
  cycle_ok w snap = true ->
  message_templater Template snap tpl w
  = (Ok (join (map (fun v => r (context_of (at_start w snap) v))
                 (fired (at_start w snap) (visits snap)))),
     mkWorld (heap_after (at_start w snap) (visits snap))
       (dict_merge (effective_store w snap) snap)).
Proof.
  intros Htpl Hrd Hok. unfold cycle_ok in Hok.
  apply andb_prop in Hok as [Hok Hwf]. apply andb_prop in Hok as [Hok Hal].
  apply andb_prop in Hok as [_ Hd].
  rewrite templater_unfold, Htpl.
  destruct (loop_spec rd r (visits snap) (mkLocals None "")
              (at_start w snap) (fun v _ _ => Hrd (context_of _ v))
              Hd Hal Hwf) as [latest ->].
  reflexivity.
Qed.
End TemplaterFacts.

(** * The claims of the specification *)

(** ** Status classification *)

(** C5: the status is a function of the truth values of [is_hot] and
    [is_cold] in the last row alone: 'hot' when [is_hot] holds, whatever
    [is_cold] says; otherwise 'cold' when [is_cold] holds; otherwise
    'neutral'. *)
Theorem classify_hot_cold_neutral (latest : Row) (hot cold : value) :
  dict_get "is_hot" latest = Some hot ->
  dict_get "is_cold" latest = Some cold ->
  classify latest
  = Ok (if truthy hot then "hot"
        else if truthy cold then "cold" else "neutral").
Proof.
  intros Hh Hc. unfold classify, row_item. rewrite Hh.
  destruct (truthy hot); [reflexivity|].
  rewrite Hc. destruct (truthy cold); reflexivity.
Qed.

Lemma classify_hot_cold_neutral_witness :
  classify (Scenario.row true true) = Ok "hot"
  /\ classify (Scenario.row false true) = Ok "cold"
  /\ classify (Scenario.row false false) = Ok "neutral".
Proof.
  split; [|split].
  - exact (classify_hot_cold_neutral (Scenario.row true true)
             (VBool true) (VBool true) eq_refl eq_refl).
  - exact (classify_hot_cold_neutral (Scenario.row false true)
             (VBool false) (VBool true) eq_refl eq_refl).
  - exact (classify_hot_cold_neutral (Scenario.row false false)
             (VBool false) (VBool false) eq_refl eq_refl).
Defined.

(** ** Formatting of the signal values *)

Lemma context_values_skip (r : Row) (signals : list string) (s : string) :
  ~ In s signals ->
  forall acc, dict_get s (context_values r signals acc) = dict_get s acc.
Proof.
  unfold context_values.
  induction signals as [|s0 signals IH]; intros Hnot acc; cbn [fold_left];
    [reflexivity|].
  rewrite IH by (intros Hin; apply Hnot; right; exact Hin).
  destruct (dict_get s0 r); [|reflexivity].
  rewrite dict_get_set.
  destruct (String.eqb_spec s0 s) as [-> | _]; [|reflexivity].
  exfalso. apply Hnot. left; reflexivity.
Qed.

Lemma context_values_get (r : Row) (signals : list string) (s : string)
    (v : value) :
  In s signals -> dict_get s r = Some v ->
  forall acc,
    dict_get s (context_values r signals acc) = Some (format_if_float v).
Proof.
  intros Hin Hv.
  induction signals as [|s0 signals IH]; intros acc; [destruct Hin|].
  destruct (in_dec string_dec s signals) as [Hlater | Hlast].
  - unfold context_values. cbn [fold_left]. apply (IH Hlater).
  - destruct Hin as [-> | Hin]; [|contradiction].
    unfold context_values. cbn [fold_left]. rewrite Hv.
    fold (context_values r signals (dict_set s (format_if_float v) acc)).
    rewrite (context_values_skip _ _ _ Hlast), dict_get_set.
    now rewrite String.eqb_refl.
Qed.

(** C9, as the code has it: a float signal value reaches the rendering
    context as the text [format(x, '.8f')], which is a fixed-point string
    with exactly 8 decimal places when the float is finite and is 'nan',
    'inf' or '-inf' otherwise; a value that is not a float is passed
    through unmodified. *)
Theorem signal_values_formatted (a : Analysis) (r : Row)
    (signals : list string) (latest : option Row) :
  iloc_last (result a) = Ok r ->
  forallb (fun s => has_key s r) signals = true ->
  exists values latest',
    signal_loop a signals [] latest = Ok (values, latest')
    /\ forall s v, In s signals -> dict_get s r = Some v ->
         match v with
         | VFloat x =>
             dict_get s values = Some (VStr (Format.format_8f x))
             /\ (finite x = true ->
                 Format.is_fixed_8 (Format.format_8f x) = true)
             /\ (x = S754_nan -> Format.format_8f x = "nan")
             /\ (forall sign, x = S754_infinity sign ->
                   Format.format_8f x = if sign then "-inf" else "inf")
         | _ => dict_get s values = Some v
         end.
Proof.
  intros Hlast Hall. unfold iloc_last in Hlast.
  destruct (rev (result a)) as [|r0 older] eqn:Hrev; [discriminate|].
  injection Hlast as ->.
  exists (context_values r signals []),
         (match signals with [] => latest | _ :: _ => Some r end).
  split; [exact (signal_loop_ok a r older signals Hrev Hall [] latest)|].
  intros s v Hin Hv.
  pose proof (context_values_get r signals s v Hin Hv []) as Hget.
  destruct v as [x| | |]; try exact Hget.
  split; [exact Hget|]. split; [|split].
  - destruct x; cbn [finite Format.format_8f]; intros Hf;
      try discriminate; apply FormatFacts.fixed_8_ok.
  - intros ->. reflexivity.
  - intros sign ->. destruct sign; reflexivity.
Qed.

Lemma signal_values_formatted_witness :
  exists values latest',
    signal_loop Scenario.mixed_occ ["value"; "count"; "gap"] [] None
    = Ok (values, latest')
    /\ dict_get "value" values = Some (VStr "0.10000000")
    /\ dict_get "count" values = Some (VInt 3)
    /\ dict_get "gap" values = Some (VStr "nan").
Proof.
  destruct (signal_values_formatted Scenario.mixed_occ Scenario.mixed_row
              ["value"; "count"; "gap"] None eq_refl eq_refl)
    as (values & latest' & Heq & Hall).
  exists values, latest'. split; [exact Heq|]. split; [|split].
  - exact (proj1 (Hall "value" (VFloat Scenario.f0_1)
                    (or_introl eq_refl) eq_refl)).
  - exact (Hall "count" (VInt 3) (or_intror (or_introl eq_refl)) eq_refl).
  - exact (proj1 (Hall "gap" (VFloat S754_nan)
                    (or_intror (or_intror (or_introl eq_refl))) eq_refl)).
Defined.

(** C9 as stated fails on a float that is not finite: NaN is a float, and
    it reaches the context as 'nan', which has no decimal places. *)
Lemma nan_is_not_fixed_point :
  signal_loop Scenario.mixed_occ ["gap"] [] None
  = Ok ([("gap", VStr "nan")], Some Scenario.mixed_row)
  /\ is_float (VFloat S754_nan) = true
  /\ Format.is_fixed_8 "nan" = false.
Proof. split; [|split]; reflexivity. Qed.

(** ** The end-of-cycle merge *)

(** C6: after a cycle that runs to its end, the store maps every exchange
    of the new snapshot to the snapshot's subtree, and every other exchange
    to what the store held before. *)
Theorem merge_at_exchange_granularity
    (Template : string -> outcome renderer) (snap : Snapshot) (tpl : string)
    (w : World) (rd : renderer) :
  Template tpl = Ok rd ->
  (forall c, exists text, rd c = Ok text) ->
  unique_keys (dict_keys snap) = true ->
  forallb (fun v => well_formed (heap w (v_loc v))) (visits snap) = true ->
  exists message w',
    message_templater Template snap tpl w = (Ok message, w')
    /\ forall exchange,
         dict_get exchange (last_analysis w')
         = match dict_get exchange snap with
           | Some subtree => Some subtree
           | None => dict_get exchange (last_analysis w)
           end.
Proof.
  intros Htpl Hrd Hkeys Hwf. rewrite templater_unfold, Htpl.
  destruct (loop_succeeds rd (visits snap) Hrd (mkLocals None "")
              (at_start w snap) Hwf) as (locals & w1 & -> & Hst).
  exists (new_message locals),
         (mkWorld (heap w1) (dict_merge (last_analysis w1) snap)).
  split; [reflexivity|]. intros exchange. cbn [last_analysis].
  rewrite (dict_get_merge _ _ _ Hkeys), Hst.
  destruct (dict_get exchange snap) as [subtree|] eqn:Hget; [reflexivity|].
  cbn [at_start last_analysis]. unfold effective_store.
  destruct (last_analysis w); [exact Hget | reflexivity].
Qed.

Lemma merge_at_exchange_granularity_witness :
  exists message w',
    message_templater Scenario.Template (Scenario.one 1) Scenario.basic
      (mkWorld (Scenario.heap_of [(1, Scenario.occ "once" true true false);
                                  (2, Scenario.occ "once" true false true)])
         [("ex0", [("ETH/USD", [("macd", [2])])]);
          ("ex1", [("BTC/USD", [("rsi", [2])])])])
    = (Ok message, w')
    /\ dict_get "ex1" (last_analysis w')
       = Some [("BTC/USD", [("rsi", [1])])]
    /\ dict_get "ex0" (last_analysis w')
       = Some [("ETH/USD", [("macd", [2])])].
Proof.
  destruct (merge_at_exchange_granularity Scenario.Template (Scenario.one 1)
              Scenario.basic
              (mkWorld (Scenario.heap_of
                          [(1, Scenario.occ "once" true true false);
                           (2, Scenario.occ "once" true false true)])
                 [("ex0", [("ETH/USD", [("macd", [2])])]);
                  ("ex1", [("BTC/USD", [("rsi", [2])])])])
              Scenario.render_basic eq_refl
              (fun c => ex_intro _ (Scenario.text_basic c) eq_refl)
              eq_refl eq_refl)
    as (message & w' & Heq & Hmerge).
  exists message, w'. split; [exact Heq|]. split.
  - exact (Hmerge "ex1").
  - exact (Hmerge "ex0").
Defined.

(** ** What a call may change *)

(** C7, as the code has it: the call is a function of the snapshot, the
    template and the world it starts in; besides the state store it writes
    only the 'status' entry of occurrences of the snapshot it was given:
    [config] and [result] of every object stay as they were, and so does
    every object that is not in the snapshot. *)
Theorem templater_writes_status_only
    (Template : string -> outcome renderer) (snap : Snapshot) (tpl : string)
    (w : World) (l : loc) :
  let w' := snd (message_templater Template snap tpl w) in
  config (heap w' l) = config (heap w l)
  /\ result (heap w' l) = result (heap w l)
  /\ (~ In l (locs (visits snap)) -> heap w' l = heap w l).
Proof.
  cbn zeta. rewrite templater_unfold.
  destruct (Template tpl) as [rd|e]; [|cbn; auto].
  pose proof (loop_frame rd (visits snap) (mkLocals None "")
                (at_start w snap)) as Hframe.
  cbn zeta in Hframe. destruct Hframe as [_ Hframe].
  destruct (for_each _ _ _ _) as [[locals|e] w1]; cbn [snd heap] in *;
    exact (Hframe l).
Qed.

(** C7 as stated fails: the snapshot the caller passed is written.  The
    occurrence had no 'status' entry before the call and has one after. *)
Lemma snapshot_is_mutated :
  let w := mkWorld (Scenario.heap_of
                      [(1, Scenario.occ "always" true true false)]) [] in
  let w' := snd (message_templater Scenario.Template (Scenario.one 1)
                   Scenario.basic w) in
  status (heap w 1) = None /\ status (heap w' 1) = Some "hot".
Proof. split; reflexivity. Qed.

(** ** Places and objects *)

Lemma in_enumerate_from {X} (xs : list X) (n i : nat) (x : X) :
  In (i, x) (combine (seq n (List.length xs)) xs) ->
  n <= i /\ nth_error xs (i - n) = Some x.
Proof.
  revert n. induction xs as [|x0 xs IH]; intros n; cbn [List.length seq combine];
    [intros []|].
  intros [Heq | Hin].
  - injection Heq as <- <-. rewrite Nat.sub_diag. split; [lia | reflexivity].
  - destruct (IH (S n) Hin) as [Hle Hnth]. split; [lia|].
    replace (i - n) with (S (i - S n)) by lia. exact Hnth.
Qed.

Lemma in_visits (snap : Snapshot) (v : Visit) :
  In v (visits snap) ->
  exists markets indicators analyses,
    In (v_exchange v, markets) snap
    /\ In (v_market v, indicators) markets
    /\ In (v_indicator v, analyses) indicators
    /\ nth_error analyses (v_index v) = Some (v_loc v).
Proof.
  unfold visits. intros Hin.
  apply in_flat_map in Hin as ([ex markets] & Hex & Hin).
  apply in_flat_map in Hin as ([mk indicators] & Hmk & Hin).
  apply in_flat_map in Hin as ([ind analyses] & Hind & Hin).
  apply in_map_iff in Hin as ([i l] & <- & Hin).
  cbn [fst snd] in *. unfold enumerate in Hin.
  apply in_enumerate_from in Hin as [_ Hnth]. rewrite Nat.sub_0_r in Hnth.
  exists markets, indicators, analyses. auto.
Qed.

(** In a nest of dictionaries the place of an occurrence leads to it. *)
Lemma lookup_visit (snap : Snapshot) (v : Visit) :
  keys_ok snap = true -> In v (visits snap) ->
  lookup_loc snap (v_exchange v) (v_market v) (v_indicator v) (v_index v)
  = Some (v_loc v).
Proof.
  intros Hkeys Hin.
  destruct (in_visits snap v Hin)
    as (markets & indicators & analyses & Hex & Hmk & Hind & Hnth).
  unfold keys_ok in Hkeys. apply andb_prop in Hkeys as [Hk1 Hk].
  rewrite forallb_forall in Hk. specialize (Hk _ Hex). cbn [snd] in Hk.
  apply andb_prop in Hk as [Hk2 Hk].
  rewrite forallb_forall in Hk. specialize (Hk _ Hmk). cbn [snd] in Hk.
  unfold lookup_loc, Snapshot, Markets, Indicators in *.
  rewrite (dict_get_in _ _ _ Hk1 Hex). cbn iota.
  rewrite (dict_get_in _ _ _ Hk2 Hmk). cbn iota.
  rewrite (dict_get_in _ _ _ Hk Hind). exact Hnth.
Qed.

(** After the merge the store holds the snapshot's own object at every
    place of the snapshot. *)
Lemma lookup_merged (store snap : Snapshot) (v : Visit) :
  keys_ok snap = true -> In v (visits snap) ->
  lookup_loc (dict_merge store snap) (v_exchange v) (v_market v)
    (v_indicator v) (v_index v)
  = Some (v_loc v).
Proof.
  intros Hkeys Hin. rewrite <- (lookup_visit snap v Hkeys Hin).
  destruct (in_visits snap v Hin) as (markets & _ & _ & Hex & _).
  pose proof Hkeys as Hk. unfold keys_ok in Hk. apply andb_prop in Hk as [Hk1 _].
  unfold lookup_loc, Snapshot, Markets, Indicators in *.
  rewrite (dict_get_merge _ _ _ Hk1).
  now rewrite (dict_get_in _ _ _ Hk1 Hex).
Qed.

Lemma fires_iff (w : World) (v : Visit) :
  fires w v = true <->
  (flag "is_hot" (last_row (heap w (v_loc v)))
   || flag "is_cold" (last_row (heap w (v_loc v))) = true)
  /\ alert_enabled (config (heap w (v_loc v))) = true
  /\ ~ (alert_frequency (config (heap w (v_loc v))) = "once"
        /\ stored_status_at w v = current_status w v).
Proof.
  unfold fires. rewrite !andb_true_iff, negb_true_iff, andb_false_iff.
  rewrite !String.eqb_neq. split.
  - intros [[Hw He] Hn]. repeat split; auto. intros [Ho Hs].
    destruct Hn; contradiction.
  - intros (Hw & He & Hn). repeat split; auto.
    destruct (String.eqb_spec (alert_frequency (config (heap w (v_loc v))))
                "once") as [Ho | Ho]; [|now left].
    right. intros Hs. apply Hn. split; assumption.
Qed.

Lemma worthy_status (r : Row) :
  flag "is_hot" r || flag "is_cold" r = true ->
  status_of r = "hot" \/ status_of r = "cold".
Proof.
  unfold status_of. destruct (flag "is_hot" r); [now left|].
  destruct (flag "is_cold" r); [now right | discriminate].
Qed.

Lemma neutral_status (r : Row) :
  flag "is_hot" r || flag "is_cold" r = false -> status_of r = "neutral".
Proof.
  unfold status_of. destruct (flag "is_hot" r); [discriminate|].
  destruct (flag "is_cold" r); [discriminate | reflexivity].
Qed.

Lemma cycle_ok_parts (w : World) (snap : Snapshot) :
  cycle_ok w snap = true ->
  keys_ok snap = true
  /\ distinct (locs (visits snap)) = true
  /\ alias_ok (effective_store w snap) (visits snap) = true
  /\ forallb (fun v => well_formed (heap w (v_loc v))) (visits snap) = true.
Proof.
  unfold cycle_ok. rewrite !andb_true_iff. tauto.
Qed.

(** ** One occurrence, when the loop reaches it *)

Lemma find_none_all (row : Row) (signals : list string) :
  find (fun s => negb (has_key s row)) signals = None ->
  forallb (fun s => has_key s row) signals = true.
Proof.
  induction signals as [|s0 signals IH]; [reflexivity|].
  cbn [find forallb]. destruct (has_key s0 row); [exact IH | discriminate].
Qed.

(** An occurrence that names a signal and on which the body raises nothing
    before the template is rendered. *)
Lemma defect_none (a : Analysis) :
  signal (config a) <> [] -> defect a = None ->
  exists row older,
    rev (result a) = row :: older
    /\ forallb (fun s => has_key s row) (signal (config a)) = true
    /\ has_key "is_hot" row = true
    /\ (flag "is_hot" row = true \/ has_key "is_cold" row = true).
Proof.
  unfold defect. intros Hsig.
  destruct (signal (config a)) as [|s0 signals] eqn:Hs; [contradiction|].
  destruct (rev (result a)) as [|row older]; [discriminate|].
  destruct (find _ _) eqn:Hfind; [discriminate|].
  apply find_none_all in Hfind.
  destruct (has_key "is_hot" row) eqn:Hhot; [|discriminate].
  intros Hd. exists row, older. split; [reflexivity|].
  split; [exact Hfind|]. split; [exact Hhot|].
  destruct (flag "is_hot" row); [now left|].
  destruct (has_key "is_cold" row); [now right | discriminate].
Qed.

(** Lines 246-252 on a row that has [is_hot], and [is_cold] unless it is
    hot: [is_cold] is not read when [is_hot] is true. *)
Lemma classify_sound (r : Row) :
  has_key "is_hot" r = true ->
  flag "is_hot" r = true \/ has_key "is_cold" r = true ->
  classify r = Ok (status_of r)
  /\ alert_worthy r = Ok (flag "is_hot" r || flag "is_cold" r).
Proof.
  unfold has_key, classify, alert_worthy, status_of, flag, row_item.
  intros Hh Hc.
  destruct (dict_get "is_hot" r) as [h|]; [|discriminate].
  destruct (truthy h); [split; reflexivity|].
  destruct Hc as [Hc | Hc]; [discriminate|].
  destruct (dict_get "is_cold" r) as [c|]; [|discriminate].
  destruct (truthy c); split; reflexivity.
Qed.

(** The loop body on an occurrence that names a signal and has the row and
    the columns that are read: an alert or nothing, by [fires]. *)
Lemma process_analysis_sound (rd : renderer) (v : Visit) (locals : Locals)
    (w : World) :
  signal (config (heap w (v_loc v))) <> [] ->
  defect (heap w (v_loc v)) = None ->
  process_analysis rd v locals w
  = if fires w v then alert_step rd v locals w else quiet_step v locals w.
Proof.
  intros Hsig Hdef.
  destruct (defect_none _ Hsig Hdef) as (r & older & Hrev & Hall & Hhot & Hcold).
  destruct (classify_sound r Hhot Hcold) as [Hclass Hworthy].
  unfold process_analysis, fires, alert_step, quiet_step, context_of,
    current_status, last_row, stored_status_at.
  unfold bind at 1. unfold read at 1. cbn beta iota.
  destruct (signal (config (heap w (v_loc v)))) as [|s0 signals] eqn:Hs;
    [contradiction|].
  rewrite Hrev.
  unfold bind at 1, lift at 1.
  rewrite (signal_loop_ok _ _ _ _ Hrev Hall). cbn beta iota.
  unfold bind at 1, lift at 1. cbn [snd fst].
  unfold bind at 1, lift at 1. rewrite Hclass.
  unfold bind at 1, lift at 1. rewrite Hworthy.
  cbn beta iota. rewrite <- andb_assoc.
  destruct (flag "is_hot" r || flag "is_cold" r); cbn [andb]; [|reflexivity].
  unfold bind at 1, get_last_status at 1. cbn beta iota.
  rewrite should_alert_fires.
  destruct (alert_enabled (config (heap w (v_loc v)))
            && negb ((alert_frequency (config (heap w (v_loc v))) =? "once")%string
                     && (stored_status w (v_exchange v) (v_market v)
                           (v_indicator v) (v_index v) =? status_of r)%string));
    [|reflexivity].
  unfold bind, write_status, read, lift, ret. cbn [heap last_analysis].
  unfold set_status at 1. rewrite Nat.eqb_refl.
  destruct (rd _) as [text|e]; reflexivity.
Qed.

(** Up to the occurrence it has reached, the loop has left the store, and
    [config] and [result] of every record, as they were. *)
Lemma reaches_frame (rd : renderer) (w : World) (snap : Snapshot)
    (pre : list Visit) (locals : Locals) (wv : World) :
  reaches rd w snap pre locals wv ->
  last_analysis wv = effective_store w snap
  /\ forall l, config (heap wv l) = config (heap w l)
              /\ result (heap wv l) = result (heap w l).
Proof.
  unfold reaches. intros Hreach.
  pose proof (loop_frame rd pre (mkLocals None "") (at_start w snap)) as Hframe.
  cbn zeta in Hframe. rewrite Hreach in Hframe. cbn [snd] in Hframe.
  destruct Hframe as [Hstore Hheap]. split; [exact Hstore|].
  intros l. destruct (Hheap l) as (Hc & Hr & _). split; assumption.
Qed.

(** The call is the loop up to an occurrence, the body on it, and the rest. *)
Lemma call_from_step (Template : string -> outcome renderer) (snap : Snapshot)
    (tpl : string) (w : World) (rd : renderer) (pre : list Visit) (v : Visit)
    (post : list Visit) (locals : Locals) (wv : World) :
  Template tpl = Ok rd ->
  visits snap = pre ++ v :: post ->
  reaches rd w snap pre locals wv ->
  message_templater Template snap tpl w
  = rest_of_call rd snap post (process_analysis rd v locals wv).
Proof.
  unfold reaches. intros Htpl Hvisits Hreach.
  rewrite templater_unfold, Htpl, Hvisits, for_each_app, Hreach.
  cbn [for_each]. unfold bind, rest_of_call.
  destruct (process_analysis rd v locals wv) as [[locals1|e] w1]; reflexivity.
Qed.

Lemma dict_get_some_in {V} (k : string) (x : V) (d : dict V) :
  dict_get k d = Some x -> In (k, x) d.
Proof.
  induction d as [|[k0 x0] d IH]; cbn [dict_get In]; [discriminate|].
  destruct (String.eqb_spec k0 k) as [-> | Hne].
  - intros H. injection H as ->. now left.
  - intros H. right. now apply IH.
Qed.

Lemma nth_error_in_enumerate_from {X} (xs : list X) :
  forall (k i : nat) (x : X),
    nth_error xs i = Some x ->
    In (k + i, x) (combine (seq k (List.length xs)) xs).
Proof.
  induction xs as [|x0 xs IH]; intros k i x; destruct i as [|i];
    cbn [nth_error List.length seq combine In]; try discriminate.
  - intros H. injection H as ->. left. now rewrite Nat.add_0_r.
  - intros H. right. replace (k + S i) with (S k + i) by lia.
    now apply IH.
Qed.

Lemma nth_error_in_enumerate {X} (xs : list X) (i : nat) (x : X) :
  nth_error xs i = Some x -> In (i, x) (enumerate xs).
Proof. intros H. exact (nth_error_in_enumerate_from xs 0 i x H). Qed.

(** What the lookup of lines 253-256 finds is an occurrence of the store. *)
Lemma lookup_in_visits (store : Snapshot) (exchange market indicator : string)
    (index : nat) (l : loc) :
  lookup_loc store exchange market indicator index = Some l ->
  In (mkVisit exchange market indicator index l) (visits store).
Proof.
  unfold lookup_loc, visits, Snapshot, Markets, Indicators in *.
  destruct (dict_get exchange store) as [markets|] eqn:Hex; [|discriminate].
  destruct (dict_get market markets) as [indicators|] eqn:Hmk; [|discriminate].
  destruct (dict_get indicator indicators) as [analyses|] eqn:Hind;
    [|discriminate].
  intros Hnth.
  apply in_flat_map. exists (exchange, markets).
  split; [now apply dict_get_some_in|]. cbn [fst snd].
  apply in_flat_map. exists (market, indicators).
  split; [now apply dict_get_some_in|]. cbn [fst snd].
  apply in_flat_map. exists (indicator, analyses).
  split; [now apply dict_get_some_in|]. cbn [fst snd].
  apply in_map_iff. exists (index, l). split; [reflexivity|].
  now apply nth_error_in_enumerate.
Qed.

(** The stored status is the 'status' of the record that the store holds at
    the place of the occurrence, and the empty string when it holds none. *)
Lemma stored_status_held (w : World) (v : Visit) (l : loc) :
  keys_ok (last_analysis w) = true ->
  In (at_place v l) (visits (last_analysis w)) ->
  stored_status_at w v = status_text (heap w l).
Proof.
  intros Hkeys Hin. unfold stored_status_at, stored_status, status_text.
  pose proof (lookup_visit _ (at_place v l) Hkeys Hin) as Hl.
  cbn [at_place v_exchange v_market v_indicator v_index v_loc] in Hl.
  now rewrite Hl.
Qed.

Lemma stored_status_absent (w : World) (v : Visit) :
  (forall l, ~ In (at_place v l) (visits (last_analysis w))) ->
  stored_status_at w v = "".
Proof.
  intros Hnone. unfold stored_status_at, stored_status.
  destruct (lookup_loc _ _ _ _ _) as [l|] eqn:Hl; [|reflexivity].
  exfalso. apply (Hnone l). now apply lookup_in_visits.
Qed.

(** ** The alert policy *)

Section Policy.
Variable Template : string -> outcome renderer.
Variables (snap : Snapshot) (tpl : string) (w : World).
Variables (rd : renderer) (r : Context -> string).
Hypothesis template_compiles : Template tpl = Ok rd.
Hypothesis renders : forall c, rd c = Ok (r c).
Hypothesis regular : cycle_ok w snap = true.

Let w0 := at_start w snap.
Let run := message_templater Template snap tpl w.

Lemma run_eq :
  run = (Ok (join (map (fun v => r (context_of w0 v))
                     (fired w0 (visits snap)))),
         mkWorld (heap_after w0 (visits snap))
           (dict_merge (effective_store w snap) snap)).
Proof.
  exact (templater_spec Template snap tpl w rd r template_compiles renders
           regular).
Qed.

Lemma heap_after_run (v : Visit) :
  In v (visits snap) ->
  heap (snd run) (v_loc v)
  = if fires w0 v
    then mkAnalysis (config (heap w (v_loc v))) (result (heap w (v_loc v)))
           (Some (current_status w0 v))
    else heap w (v_loc v).
Proof.
  intros Hin. rewrite run_eq. cbn [snd heap]. unfold heap_after.
  destruct (cycle_ok_parts _ _ regular) as (_ & Hd & _).
  exact (fold_fire_at w0 (visits snap) v Hin Hd (heap w0)).
Qed.

Lemma in_fired (v : Visit) :
  In v (fired w0 (visits snap)) <-> In v (visits snap) /\ fires w0 v = true.
Proof. unfold fired. apply filter_In. Qed.

End Policy.

(** C2, as the code has it.  Take an occurrence that the loop reaches (no
    occurrence before it raised), that names at least one signal, and whose
    DataFrame has a last row with the columns that are read.  The call
    continues with the body on it.  When its last row is hot or cold, the
    body is an alert (the status written, the template rendered on its
    context, the text appended or the exception raised) if its alerts are
    enabled and it is not the case that its frequency is 'once' with the
    stored status equal to the current one, and otherwise the body leaves
    the message and the world as they are; when its last row is neither
    hot nor cold the body leaves them as they are.  The current status is
    that of its own last row; the stored status is the 'status' of the
    record that the store read by the loops holds at its place at that
    moment, and the empty string when it holds none. *)
Theorem alert_policy
    (Template : string -> outcome renderer) (snap : Snapshot) (tpl : string)
    (w : World) (rd : renderer) (pre : list Visit) (v : Visit)
    (post : list Visit) (locals : Locals) (wv : World) :
  Template tpl = Ok rd ->
  visits snap = pre ++ v :: post ->
  reaches rd w snap pre locals wv ->
  signal (config (heap w (v_loc v))) <> [] ->
  defect (heap w (v_loc v)) = None ->
  let a := heap w (v_loc v) in
  let row := last_row a in
  let current := status_of row in
  let stored := stored_status_at wv v in
  let step := process_analysis rd v locals wv in
  message_templater Template snap tpl w = rest_of_call rd snap post step
  /\ (flag "is_hot" row || flag "is_cold" row = true ->
      (alert_enabled (config a) = true
       /\ ~ (alert_frequency (config a) = "once" /\ stored = current) ->
       step = alert_step rd v locals wv)
      /\ (~ (alert_enabled (config a) = true
             /\ ~ (alert_frequency (config a) = "once" /\ stored = current)) ->
          step = quiet_step v locals wv))
  /\ (flag "is_hot" row || flag "is_cold" row = false ->
      step = quiet_step v locals wv)
  /\ (config (heap wv (v_loc v)) = config a
      /\ result (heap wv (v_loc v)) = result a
      /\ current_status wv v = current
      /\ ctx_status (context_of wv v) = current
      /\ ctx_last_status (context_of wv v) = stored)
  /\ last_analysis wv = effective_store w snap
  /\ (forall l, keys_ok (effective_store w snap) = true ->
                In (at_place v l) (visits (effective_store w snap)) ->
                stored = status_text (heap wv l))
  /\ ((forall l, ~ In (at_place v l) (visits (effective_store w snap))) ->
      stored = "").
Proof.
  intros Htpl Hvisits Hreach Hsig Hdef. cbn zeta.
  destruct (reaches_frame _ _ _ _ _ _ Hreach) as [Hstore Hsame].
  destruct (Hsame (v_loc v)) as [Hcfg Hres].
  assert (Hrow : last_row (heap wv (v_loc v)) = last_row (heap w (v_loc v))).
  { unfold last_row. now rewrite Hres. }
  assert (Hcur : current_status wv v = status_of (last_row (heap w (v_loc v)))).
  { unfold current_status. now rewrite Hrow. }
  assert (Hstep : process_analysis rd v locals wv
                  = if fires wv v then alert_step rd v locals wv
                    else quiet_step v locals wv).
  { apply process_analysis_sound.
    - now rewrite Hcfg.
    - unfold defect in *. now rewrite Hcfg, Hres. }
  pose proof (fires_iff wv v) as Hiff.
  rewrite Hcfg, Hrow, Hcur in Hiff.
  split; [exact (call_from_step Template snap tpl w rd pre v post locals wv
                   Htpl Hvisits Hreach)|].
  split; [|split; [|split; [|split; [|split]]]].
  - intros Hworthy. split.
    + intros Hcond. rewrite Hstep.
      replace (fires wv v) with true; [reflexivity|].
      symmetry. apply Hiff. split; [exact Hworthy | exact Hcond].
    + intros Hcond. rewrite Hstep.
      destruct (fires wv v); [|reflexivity].
      exfalso. apply Hcond. now apply Hiff.
  - intros Hneutral. rewrite Hstep.
    destruct (fires wv v); [|reflexivity].
    destruct (proj1 Hiff eq_refl) as [Hworthy _]. congruence.
  - repeat split; auto.
  - exact Hstore.
  - intros l Hkeys Hin. rewrite <- Hstore in Hkeys, Hin.
    now apply stored_status_held.
  - intros Hnone. apply stored_status_absent. now rewrite Hstore.
Qed.

Lemma alert_policy_witness :
  let neutral_then_hot :=
    mkWorld (Scenario.heap_of [(1, Scenario.neutral_once);
                               (2, Scenario.hot_once)]) [] in
  fst (Scenario.run (Scenario.one 1) Scenario.first_call)
  = Ok "rsi is hot: 71.23400000"
  /\ stored_status_at (Scenario.later_call Scenario.hot_once)
       (Scenario.the_visit 1) = "hot"
  /\ Scenario.run (Scenario.one 1) (Scenario.later_call Scenario.hot_once)
     = (Ok "", mkWorld (heap (Scenario.later_call Scenario.hot_once))
                 (Scenario.one 1))
  /\ fst (Scenario.run (Scenario.one 1)
            (Scenario.later_call Scenario.cold_once))
     = Ok "rsi is cold: 71.23400000"
  /\ fst (Scenario.run (Scenario.two 1 2) neutral_then_hot)
     = Ok "rsi is hot: 71.23400000".
Proof.
  cbv zeta. unfold Scenario.run.
  split; [|split; [|split; [|split]]].
  - pose proof (alert_policy Scenario.Template (Scenario.one 1) Scenario.basic
                  Scenario.first_call Scenario.render_basic []
                  (Scenario.the_visit 1) [] (mkLocals None "")
                  (at_start Scenario.first_call (Scenario.one 1))
                  eq_refl eq_refl eq_refl) as H.
    cbv zeta in H. destruct H as (Hcall & Hworthy & _);
      [discriminate | reflexivity |].
    rewrite Hcall.
    rewrite (proj1 (Hworthy eq_refl)); [reflexivity|].
    split; [reflexivity|]. intros [_ Hsame]. discriminate Hsame.
  - pose proof (alert_policy Scenario.Template (Scenario.one 1) Scenario.basic
                  (Scenario.later_call Scenario.hot_once)
                  Scenario.render_basic [] (Scenario.the_visit 1) []
                  (mkLocals None "")
                  (at_start (Scenario.later_call Scenario.hot_once)
                     (Scenario.one 1))
                  eq_refl eq_refl eq_refl) as H.
    cbv zeta in H. destruct H as (_ & _ & _ & _ & _ & Hheld & _);
      [discriminate | reflexivity |].
    exact (Hheld 2 eq_refl (or_introl eq_refl)).
  - pose proof (alert_policy Scenario.Template (Scenario.one 1) Scenario.basic
                  (Scenario.later_call Scenario.hot_once)
                  Scenario.render_basic [] (Scenario.the_visit 1) []
                  (mkLocals None "")
                  (at_start (Scenario.later_call Scenario.hot_once)
                     (Scenario.one 1))
                  eq_refl eq_refl eq_refl) as H.
    cbv zeta in H. destruct H as (Hcall & Hworthy & _);
      [discriminate | reflexivity |].
    rewrite Hcall.
    rewrite (proj2 (Hworthy eq_refl)); [reflexivity|].
    intros [_ Hnot]. apply Hnot. split; reflexivity.
  - pose proof (alert_policy Scenario.Template (Scenario.one 1) Scenario.basic
                  (Scenario.later_call Scenario.cold_once)
                  Scenario.render_basic [] (Scenario.the_visit 1) []
                  (mkLocals None "")
                  (at_start (Scenario.later_call Scenario.cold_once)
                     (Scenario.one 1))
                  eq_refl eq_refl eq_refl) as H.
    cbv zeta in H. destruct H as (Hcall & Hworthy & _);
      [discriminate | reflexivity |].
    rewrite Hcall.
    rewrite (proj1 (Hworthy eq_refl)); [reflexivity|].
    split; [reflexivity|]. intros [_ Hsame]. discriminate Hsame.
  - pose proof (alert_policy Scenario.Template (Scenario.two 1 2)
                  Scenario.basic
                  (mkWorld (Scenario.heap_of [(1, Scenario.neutral_once);
                                              (2, Scenario.hot_once)]) [])
                  Scenario.render_basic
                  [mkVisit "ex1" "BTC/USD" "rsi" 0 1]
                  (mkVisit "ex1" "BTC/USD" "rsi" 1 2) []
                  (mkLocals (Some (Scenario.row false false)) "")
                  (at_start
                     (mkWorld (Scenario.heap_of [(1, Scenario.neutral_once);
                                                 (2, Scenario.hot_once)]) [])
                     (Scenario.two 1 2))
                  eq_refl eq_refl eq_refl) as H.
    cbv zeta in H. destruct H as (Hcall & Hworthy & _);
      [discriminate | reflexivity |].
    rewrite Hcall.
    rewrite (proj1 (Hworthy eq_refl)); [reflexivity|].
    split; [reflexivity|]. intros [_ Hsame]. discriminate Hsame.
Defined.

(** C2 as stated fails for an occurrence whose signal list is empty:
    [latest_result] is bound inside the loop over the signals (line 240),
    so such an occurrence is judged on the row left by the occurrence
    before it.  After a hot occurrence, one whose own last row is neither
    hot nor cold is rendered as hot and gets the status 'hot'; and one
    whose own last row is hot, with alerts enabled and nothing stored, is
    not rendered: it raises when it is the first, and is passed over after
    an occurrence that is neither hot nor cold.  Nor is a hot occurrence
    with alerts enabled and nothing stored rendered when it names a signal
    that is not a column of its last row, or when an occurrence before it
    has no row: the call raises. *)
Lemma occurrence_not_judged_on_its_last_row :
  let quiet := Scenario.no_signal "always" false false in
  let hot := Scenario.no_signal "always" true false in
  let after_hot :=
    mkWorld (Scenario.heap_of [(1, Scenario.hot_always); (2, quiet)]) [] in
  let first := mkWorld (Scenario.heap_of [(1, hot)]) [] in
  let after_neutral :=
    mkWorld (Scenario.heap_of [(1, Scenario.neutral_once); (2, hot)]) [] in
  let missing :=
    mkWorld (Scenario.heap_of [(1, Scenario.no_column "always")]) [] in
  let after_no_rows :=
    mkWorld (Scenario.heap_of [(1, Scenario.no_rows);
                               (2, Scenario.hot_always)]) [] in
  (status_of (last_row quiet) = "neutral"
   /\ fst (Scenario.run (Scenario.two 1 2) after_hot)
      = Ok "rsi is hot: 71.23400000rsi is hot: "
   /\ status (heap (snd (Scenario.run (Scenario.two 1 2) after_hot)) 2)
      = Some "hot")
  /\ (status_of (last_row hot) = "hot"
      /\ fst (Scenario.run (Scenario.one 1) first) = Raise UnboundLocalError
      /\ fst (Scenario.run (Scenario.two 1 2) after_neutral) = Ok ""
      /\ status (heap (snd (Scenario.run (Scenario.two 1 2) after_neutral)) 2)
         = None)
  /\ (status_of (last_row (Scenario.no_column "always")) = "hot"
      /\ fst (Scenario.run (Scenario.one 1) missing)
         = Raise (KeyError "volume"))
  /\ fst (Scenario.run (Scenario.two 1 2) after_no_rows) = Raise IndexError.
Proof. cbv zeta. repeat split; vm_compute; reflexivity. Qed.

(** ** First observations *)

Lemma no_stored_status_empty (w : World) (v : Visit) :
  no_stored_status w v = true -> stored_status_at w v = "".
Proof.
  unfold no_stored_status, stored_status_at, stored_status.
  destruct (lookup_loc _ _ _ _ _) as [l|]; [|reflexivity].
  destruct (status (heap w l)); [discriminate | reflexivity].
Qed.

(** C4, as the code has it.  Take an occurrence that the loop reaches, that
    names at least one signal, and whose DataFrame has a last row with the
    columns that are read.  The store that the loops read is
    [self.last_analysis] as it was on entry, or the snapshot itself when
    that was empty.  When this store holds no record at the place of the
    occurrence, or a record that has no 'status' at that moment, the
    lookup of the last status does not raise and gives the empty string;
    if the last row of the occurrence is hot or cold and its alerts are
    enabled, the body is then an alert, whatever the alert frequency: the
    status of its last row is written and the template is rendered with an
    empty last status. *)
Theorem first_observation_fires
    (Template : string -> outcome renderer) (snap : Snapshot) (tpl : string)
    (w : World) (rd : renderer) (pre : list Visit) (v : Visit)
    (post : list Visit) (locals : Locals) (wv : World) :
  Template tpl = Ok rd ->
  visits snap = pre ++ v :: post ->
  reaches rd w snap pre locals wv ->
  signal (config (heap w (v_loc v))) <> [] ->
  defect (heap w (v_loc v)) = None ->
  flag "is_hot" (last_row (heap w (v_loc v)))
  || flag "is_cold" (last_row (heap w (v_loc v))) = true ->
  alert_enabled (config (heap w (v_loc v))) = true ->
  no_stored_status (mkWorld (heap wv) (effective_store w snap)) v = true ->
  let current := status_of (last_row (heap w (v_loc v))) in
  let step := process_analysis rd v locals wv in
  last_analysis wv = effective_store w snap
  /\ stored_status_at wv v = ""
  /\ (current = "hot" \/ current = "cold")
  /\ step = alert_step rd v locals wv
  /\ ctx_status (context_of wv v) = current
  /\ ctx_last_status (context_of wv v) = ""
  /\ status (heap (snd step) (v_loc v)) = Some current
  /\ message_templater Template snap tpl w = rest_of_call rd snap post step.
Proof.
  intros Htpl Hvisits Hreach Hsig Hdef Hworthy Hen Hnone. cbn zeta.
  destruct (reaches_frame _ _ _ _ _ _ Hreach) as [Hstore Hsame].
  destruct (Hsame (v_loc v)) as [Hcfg Hres].
  assert (Hrow : last_row (heap wv (v_loc v)) = last_row (heap w (v_loc v))).
  { unfold last_row. now rewrite Hres. }
  assert (Hcur : current_status wv v = status_of (last_row (heap w (v_loc v)))).
  { unfold current_status. now rewrite Hrow. }
  assert (Hempty : stored_status_at wv v = "").
  { apply no_stored_status_empty. rewrite <- Hstore in Hnone.
    destruct wv; exact Hnone. }
  assert (Hf : fires wv v = true).
  { apply fires_iff. rewrite Hcfg, Hrow, Hcur, Hempty.
    split; [exact Hworthy|]. split; [exact Hen|].
    intros [_ Hsame']. destruct (worthy_status _ Hworthy) as [Hs | Hs];
      rewrite Hs in Hsame'; discriminate. }
  assert (Hstep : process_analysis rd v locals wv = alert_step rd v locals wv).
  { rewrite process_analysis_sound, Hf; [reflexivity | |].
    - now rewrite Hcfg.
    - unfold defect in *. now rewrite Hcfg, Hres. }
  split; [exact Hstore|]. split; [exact Hempty|].
  split; [exact (worthy_status _ Hworthy)|]. split; [exact Hstep|].
  split; [exact Hcur|]. split; [exact Hempty|].
  split.
  - rewrite Hstep. unfold alert_step.
    destruct (rd (context_of wv v)); cbn [snd heap];
      now rewrite set_status_same, Hcur.
  - exact (call_from_step Template snap tpl w rd pre v post locals wv
             Htpl Hvisits Hreach).
Qed.

Lemma first_observation_fires_witness :
  let always := mkWorld (Scenario.heap_of [(1, Scenario.hot_always)]) [] in
  let later :=
    mkWorld (Scenario.heap_of [(1, Scenario.cold_once);
                               (2, Scenario.neutral_once)]) (Scenario.one 2) in
  Scenario.run (Scenario.one 1) Scenario.first_call
  = (Ok "rsi is hot: 71.23400000",
     mkWorld (set_status 1 "hot" (heap Scenario.first_call)) (Scenario.one 1))
  /\ fst (Scenario.run (Scenario.one 1) always) = Ok "rsi is hot: 71.23400000"
  /\ fst (Scenario.run (Scenario.one 1) later) = Ok "rsi is cold: 71.23400000".
Proof.
  cbv zeta. unfold Scenario.run. split; [|split].
  - pose proof (first_observation_fires Scenario.Template (Scenario.one 1)
                  Scenario.basic Scenario.first_call Scenario.render_basic []
                  (Scenario.the_visit 1) [] (mkLocals None "")
                  (at_start Scenario.first_call (Scenario.one 1))
                  eq_refl eq_refl eq_refl) as H.
    cbv zeta in H.
    destruct H as (_ & _ & _ & Hstep & _ & _ & _ & Hcall);
      [discriminate | reflexivity | reflexivity | reflexivity | reflexivity |].
    rewrite Hcall, Hstep. reflexivity.
  - pose proof (first_observation_fires Scenario.Template (Scenario.one 1)
                  Scenario.basic
                  (mkWorld (Scenario.heap_of [(1, Scenario.hot_always)]) [])
                  Scenario.render_basic []
                  (Scenario.the_visit 1) [] (mkLocals None "")
                  (at_start
                     (mkWorld (Scenario.heap_of [(1, Scenario.hot_always)]) [])
                     (Scenario.one 1))
                  eq_refl eq_refl eq_refl) as H.
    cbv zeta in H.
    destruct H as (_ & _ & _ & Hstep & _ & _ & _ & Hcall);
      [discriminate | reflexivity | reflexivity | reflexivity | reflexivity |].
    rewrite Hcall, Hstep. reflexivity.
  - pose proof (first_observation_fires Scenario.Template (Scenario.one 1)
                  Scenario.basic
                  (mkWorld (Scenario.heap_of [(1, Scenario.cold_once);
                                              (2, Scenario.neutral_once)])
                     (Scenario.one 2))
                  Scenario.render_basic []
                  (Scenario.the_visit 1) [] (mkLocals None "")
                  (at_start
                     (mkWorld (Scenario.heap_of [(1, Scenario.cold_once);
                                                 (2, Scenario.neutral_once)])
                        (Scenario.one 2))
                     (Scenario.one 1))
                  eq_refl eq_refl eq_refl) as H.
    cbv zeta in H.
    destruct H as (_ & _ & _ & Hstep & _ & _ & _ & Hcall);
      [discriminate | reflexivity | reflexivity | reflexivity | reflexivity |].
    rewrite Hcall, Hstep. reflexivity.
Defined.

(** C4 as stated fails in two ways.  A hot occurrence with alerts enabled
    for which nothing is stored, but whose signal list is empty, does not
    fire: it raises when it is the first of the cycle, and is passed over
    after an occurrence that is neither hot nor cold (nor does one fire
    that names a signal which is not a column of its last row, or that
    comes after an occurrence without rows: the call raises).  And on the
    first call, when no cycle has stored anything, the loops read the
    snapshot as the store: a hot occurrence of frequency 'once' whose
    incoming record carries the status 'hot' does not fire. *)
Lemma first_observation_does_not_fire :
  let unsignalled := Scenario.no_signal "once" true false in
  let first := mkWorld (Scenario.heap_of [(1, unsignalled)]) [] in
  let after_neutral :=
    mkWorld (Scenario.heap_of [(1, Scenario.neutral_once); (2, unsignalled)])
      [] in
  let missing :=
    mkWorld (Scenario.heap_of [(1, Scenario.no_column "once")]) [] in
  let after_no_rows :=
    mkWorld (Scenario.heap_of [(1, Scenario.no_rows); (2, Scenario.hot_once)])
      [] in
  (status_of (last_row unsignalled) = "hot"
   /\ alert_enabled (config unsignalled) = true
   /\ fst (Scenario.run (Scenario.one 1) first) = Raise UnboundLocalError
   /\ fst (Scenario.run (Scenario.two 1 2) after_neutral) = Ok ""
   /\ status (heap (snd (Scenario.run (Scenario.two 1 2) after_neutral)) 2)
      = None)
  /\ (fst (Scenario.run (Scenario.one 1) missing) = Raise (KeyError "volume")
      /\ fst (Scenario.run (Scenario.two 1 2) after_no_rows)
         = Raise IndexError)
  /\ (last_analysis Scenario.first_call_with_status = []
      /\ status_of (last_row (heap Scenario.first_call_with_status 1)) = "hot"
      /\ alert_enabled (config (heap Scenario.first_call_with_status 1)) = true
      /\ fst (Scenario.run (Scenario.one 1) Scenario.first_call_with_status)
         = Ok "").
Proof. cbv zeta. repeat split; vm_compute; reflexivity. Qed.



(** ** The stored status across cycles *)




(** ** Two cycles in a row *)

Lemma well_formed_status (a : Analysis) (s : option string) :
  well_formed (mkAnalysis (config a) (result a) s) = well_formed a.
Proof. reflexivity. Qed.

Lemma merge_not_empty {V} (a b : dict V) (k : string) (x : V) :
  unique_keys (dict_keys b) = true -> In (k, x) b ->
  dict_is_empty (dict_merge a b) = false.
Proof.
  intros Hu Hin. pose proof (dict_get_merge k a b Hu) as Hget.
  rewrite (dict_get_in _ _ _ Hu Hin) in Hget.
  destruct (dict_merge a b); [discriminate | reflexivity].
Qed.

Section TwoCycles.
Variable Template : string -> outcome renderer.
Variables (snap : Snapshot) (tpl : string) (w : World).
Variables (rd : renderer) (r : Context -> string).
Hypothesis template_compiles : Template tpl = Ok rd.
Hypothesis renders : forall c, rd c = Ok (r c).
Hypothesis regular : cycle_ok w snap = true.

Let w0 := at_start w snap.
Let w1 := snd (message_templater Template snap tpl w).

Lemma store_after_run :
  last_analysis w1 = dict_merge (effective_store w snap) snap.
Proof.
  unfold w1. now rewrite (run_eq Template snap tpl w rd r template_compiles
                            renders regular).
Qed.

Lemma store_after_run_not_empty (v : Visit) :
  In v (visits snap) -> dict_is_empty (last_analysis w1) = false.
Proof.
  intros Hin. rewrite store_after_run.
  destruct (in_visits snap v Hin) as (markets & _ & _ & Hex & _).
  destruct (cycle_ok_parts _ _ regular) as (Hkeys & _).
  unfold keys_ok in Hkeys. apply andb_prop in Hkeys as [Hk _].
  exact (merge_not_empty _ _ _ _ Hk Hex).
Qed.

(** Where the next call looks for the status of a place of this snapshot. *)
Lemma lookup_after_run (next : Snapshot) (v : Visit) :
  In v (visits snap) ->
  lookup_loc (effective_store w1 next) (v_exchange v) (v_market v)
    (v_indicator v) (v_index v) = Some (v_loc v).
Proof.
  intros Hin. unfold effective_store.
  rewrite (store_after_run_not_empty v Hin), store_after_run.
  destruct (cycle_ok_parts _ _ regular) as (Hkeys & _).
  now apply lookup_merged.
Qed.

Lemma current_status_after_run (v : Visit) :
  In v (visits snap) -> current_status w1 v = current_status w0 v.
Proof.
  intros Hin. unfold current_status, last_row, w1.
  rewrite (heap_after_run Template snap tpl w rd r template_compiles renders
             regular v Hin).
  destruct (fires (at_start w snap) v); reflexivity.
Qed.

(** The same snapshot can be passed again. *)
Lemma cycle_ok_again : cycle_ok w1 snap = true.
Proof.
  destruct (cycle_ok_parts _ _ regular) as (Hkeys & Hd & _ & Hwf).
  unfold cycle_ok. rewrite Hkeys, Hd. cbn [andb].
  apply andb_true_intro. split.
  - unfold alias_ok. apply forallb_forall. intros v Hin.
    rewrite (lookup_after_run snap v Hin). now rewrite Nat.eqb_refl.
  - rewrite forallb_forall in Hwf |- *. intros v Hin. unfold w1.
    rewrite (heap_after_run Template snap tpl w rd r template_compiles
               renders regular v Hin).
    destruct (fires (at_start w snap) v); [|now apply Hwf].
    rewrite well_formed_status. now apply Hwf.
Qed.

End TwoCycles.



Lemma filter_none {X} (f : X -> bool) (xs : list X) :
  (forall x, In x xs -> f x = false) -> filter f xs = [].
Proof.
  induction xs as [|x xs IH]; intros H; cbn [filter]; [reflexivity|].
  rewrite (H x (or_introl eq_refl)). apply IH.
  intros y Hy. apply H. right; exact Hy.
Qed.




(** ** A rendering that fails *)

Lemma distinct_app_l (ls ls' : list loc) :
  distinct (ls ++ ls') = true -> distinct ls = true.
Proof.
  induction ls as [|l ls IH]; [reflexivity|].
  cbn [app]. rewrite !distinct_cons. intros [Hfresh Hd]. split; [|auto].
  intros Hin. apply Hfresh. apply in_or_app. now left.
Qed.

Lemma alias_ok_app_l (store : Snapshot) (pre rest : list Visit) :
  alias_ok store (pre ++ rest) = true -> alias_ok store pre = true.
Proof.
  unfold alias_ok. rewrite !forallb_forall. intros H v Hin.
  specialize (H v (in_or_app _ _ _ (or_introl Hin))).
  destruct (lookup_loc store _ _ _ _) as [l|]; [|reflexivity].
  apply orb_true_iff in H as [H | H]; [now rewrite H|].
  apply orb_true_iff; right. apply negb_true_iff in H. apply negb_true_iff.
  unfold locs in *. rewrite map_app, existsb_app in H.
  now apply orb_false_elim in H.
Qed.

(** C8, as the code has it: nothing catches an exception of the renderer.
    In a regular cycle, when the rendering of an occurrence that fires
    raises, the call raises that exception: no message is returned, the
    occurrences after it are not processed and their objects stay as they
    were, and the merge is not done; the status written for the failing
    occurrence just before rendering stays written. *)
Theorem render_failure_aborts
    (Template : string -> outcome renderer) (snap : Snapshot) (tpl : string)
    (w : World) (rd : renderer) (pre : list Visit) (v : Visit)
    (post : list Visit) (e : exn) :
  Template tpl = Ok rd ->
  cycle_ok w snap = true ->
  visits snap = pre ++ v :: post ->
  let w0 := at_start w snap in
  (forall v', In v' pre -> fires w0 v' = true ->
              exists text, rd (context_of w0 v') = Ok text) ->
  fires w0 v = true ->
  rd (context_of w0 v) = Raise e ->
  let run := message_templater Template snap tpl w in
  fst run = Raise e
  /\ last_analysis (snd run) = effective_store w snap
  /\ heap (snd run) = heap_after w0 (pre ++ [v])
  /\ status (heap (snd run) (v_loc v)) = Some (current_status w0 v)
  /\ forall v', In v' post -> heap (snd run) (v_loc v') = heap w (v_loc v').
Proof.
  intros Htpl Hok Hvisits. cbn zeta. intros Hpre Hf He.
  destruct (cycle_ok_parts _ _ Hok) as (_ & Hd & Ha & Hwf).
  rewrite Hvisits in Hd, Ha, Hwf.
  set (w0 := at_start w snap) in *.
  change (effective_store w snap) with (last_analysis w0) in Ha |- *.
  change (heap w) with (heap w0) in Hwf |- *.
  set (r := fun c => match rd c with Ok text => text | Raise _ => "" end).
  rewrite forallb_app in Hwf. apply andb_prop in Hwf as [Hwfpre Hwfrest].
  destruct (loop_spec rd r pre (mkLocals None "") w0) as [latest Hloop].
  { intros v' Hin Hf'. destruct (Hpre v' Hin Hf') as [text Htext].
    unfold r. now rewrite Htext. }
  { unfold locs in Hd. rewrite map_app in Hd. exact (distinct_app_l _ _ Hd). }
  { exact (alias_ok_app_l _ _ _ Ha). }
  { exact Hwfpre. }
  pose proof (agree_after_prefix w0 pre (v :: post) Hd Ha) as Hag.
  set (w1 := mkWorld (heap_after w0 pre) (last_analysis w0)) in *.
  assert (Hv : In v (v :: post)) by (left; reflexivity).
  destruct (agree_fires _ _ _ _ Hag Hv) as (Hfe & Hce & Hse).
  assert (Hrun : message_templater Template snap tpl w
                 = (Raise e,
                    mkWorld (set_status (v_loc v) (current_status w0 v)
                               (heap_after w0 pre))
                      (last_analysis w0))).
  { rewrite templater_unfold, Htpl, Hvisits, for_each_app. fold w0.
    rewrite Hloop. cbn [for_each]. unfold bind.
    rewrite process_analysis_ok.
    - rewrite Hfe, Hf. cbn zeta. rewrite Hce, He, Hse. reflexivity.
    - rewrite (proj1 (Hag v Hv)). cbn [forallb] in Hwfrest.
      now apply andb_prop in Hwfrest. }
  rewrite Hrun. cbn [fst snd heap last_analysis].
  split; [reflexivity|]. split; [reflexivity|]. split; [|split].
  - assert (Hstep : forall h, fire_status w0 h v
                              = set_status (v_loc v) (current_status w0 v) h).
    { intros h. unfold fire_status. now rewrite Hf. }
    unfold heap_after. rewrite fold_left_app. cbn [fold_left].
    now rewrite Hstep.
  - now rewrite set_status_same.
  - intros v' Hin.
    assert (Hne : v_loc v' <> v_loc v).
    { unfold locs in Hd. rewrite map_app in Hd. cbn [map] in Hd.
      clear -Hd Hin. induction pre as [|p pre IH].
      - cbn [app] in Hd. apply distinct_cons in Hd as [Hfresh _].
        intros Heq. apply Hfresh. rewrite <- Heq. now apply in_map.
      - cbn [map app] in Hd. apply distinct_cons in Hd as [_ Hd]. auto. }
    rewrite set_status_other by exact Hne.
    exact (proj1 (Hag v' (or_intror Hin))).
Qed.

Lemma render_failure_aborts_witness :
  let run := message_templater Scenario.Template (Scenario.two 1 2)
               Scenario.div Scenario.two_hot in
  fst run = Raise TemplateError
  /\ last_analysis (snd run) = [("ex0", [("ETH/USD", [("macd", [3])])])]
  /\ status (heap (snd run) 1) = Some "hot"
  /\ heap (snd run) 2 = Scenario.hot_always.
Proof.
  cbv zeta.
  destruct (render_failure_aborts Scenario.Template (Scenario.two 1 2)
              Scenario.div Scenario.two_hot Scenario.render_div []
              (mkVisit "ex1" "BTC/USD" "rsi" 0 1)
              [mkVisit "ex1" "BTC/USD" "rsi" 1 2] TemplateError
              eq_refl eq_refl eq_refl (fun v' (H : In v' []) => match H with end)
              eq_refl eq_refl)
    as (Hraise & Hstore & _ & Hstatus & Hpost).
  split; [exact Hraise|]. split; [exact Hstore|]. split; [exact Hstatus|].
  exact (Hpost (mkVisit "ex1" "BTC/USD" "rsi" 1 2) (or_introl eq_refl)).
Defined.

(** C8 as stated fails: a rendering that fails aborts the cycle.  Of two
    hot occurrences that alert always, the rendering of the first raises:
    the call raises, the second occurrence is not processed (no status is
    written for it) and the store still does not know the snapshot's
    exchange, while with a template that renders both alerts are produced
    and the exchange is merged. *)
Lemma render_failure_is_not_isolated :
  let failing := message_templater Scenario.Template (Scenario.two 1 2)
                   Scenario.div Scenario.two_hot in
  let working := message_templater Scenario.Template (Scenario.two 1 2)
                   Scenario.basic Scenario.two_hot in
  fst failing = Raise TemplateError
  /\ status (heap (snd failing) 2) = None
  /\ dict_get "ex1" (last_analysis (snd failing)) = None
  /\ fst working = Ok "rsi is hot: 71.23400000rsi is hot: 71.23400000"
  /\ status (heap (snd working) 2) = Some "hot"
  /\ dict_get "ex1" (last_analysis (snd working))
     = Some [("BTC/USD", [("rsi", [1; 2])])].
Proof. cbv zeta. repeat split; vm_compute; reflexivity. Qed.

(** * Further properties of the module *)

(** ** The store and the statuses after any call *)

(** X1: whatever the snapshot, the template and the world, a call that
    returns has merged the snapshot into the store, and a call that raises
    has not: the store is then the one the loops started with, which is the
    snapshot itself when the store was empty. *)
Theorem store_after_call
    (Template : string -> outcome renderer) (snap : Snapshot) (tpl : string)
    (w : World) :
  let run := message_templater Template snap tpl w in
  last_analysis (snd run)
  = match fst run with
    | Ok _ => dict_merge (effective_store w snap) snap
    | Raise _ => effective_store w snap
    end.
Proof.
  cbn zeta. rewrite templater_unfold.
  destruct (Template tpl) as [rd|e]; [|reflexivity].
  pose proof (loop_frame rd (visits snap) (mkLocals None "")
                (at_start w snap)) as Hframe.
  cbn zeta in Hframe. destruct Hframe as [Hstore _].
  destruct (for_each _ _ _ _) as [[locals|e] w1]; cbn [fst snd] in *.
  - cbn [last_analysis]. now rewrite Hstore.
  - exact Hstore.
Qed.

Lemma classify_worthy (row : Row) (s : string) :
  classify row = Ok s -> alert_worthy row = Ok true ->
  s = "hot" \/ s = "cold".
Proof.
  unfold classify, alert_worthy.
  destruct (row_item row "is_hot") as [hot|e]; [|discriminate].
  destruct (truthy hot).
  - intros H _. injection H as <-. now left.
  - destruct (row_item row "is_cold") as [cold|e]; [|discriminate].
    destruct (truthy cold); intros H H'.
    + injection H as <-. now right.
    + discriminate.
Qed.

(** The body writes nothing, or 'hot' or 'cold' as the status of the object
    it visits. *)
Lemma process_analysis_writes (rd : renderer) (v : Visit) (locals : Locals)
    (w : World) :
  heap (snd (process_analysis rd v locals w)) = heap w
  \/ exists s,
       (s = "hot" \/ s = "cold")
       /\ heap (snd (process_analysis rd v locals w))
          = set_status (v_loc v) s (heap w).
Proof.
  unfold process_analysis, bind, read, lift, get_last_status, write_status, ret.
  destruct (signal_loop _ _ _ _) as [[values latest]|e]; [|now left].
  cbn [snd fst]. destruct latest as [row|]; [|now left].
  destruct (classify row) as [s|e] eqn:Hs; [|now left].
  destruct (alert_worthy row) as [worthy|e] eqn:Hw; [|now left].
  destruct worthy; [|now left].
  destruct (should_alert _ _ _); [|now left].
  right. exists s. split; [exact (classify_worthy row s Hs Hw)|].
  destruct (rd _); reflexivity.
Qed.

Lemma loop_writes (rd : renderer) (vs : list Visit) :
  forall locals w l,
    let w' := snd (for_each vs (process_analysis rd) locals w) in
    status (heap w' l) = status (heap w l)
    \/ status (heap w' l) = Some "hot"
    \/ status (heap w' l) = Some "cold".
Proof.
  induction vs as [|v vs IH]; intros locals w l; cbn zeta; [now left|].
  cbn [for_each]. unfold bind.
  pose proof (process_analysis_writes rd v locals w) as Hw.
  assert (Hstep : status (heap (snd (process_analysis rd v locals w)) l)
                  = status (heap w l)
                  \/ status (heap (snd (process_analysis rd v locals w)) l)
                     = Some "hot"
                  \/ status (heap (snd (process_analysis rd v locals w)) l)
                     = Some "cold").
  { destruct Hw as [-> | (s & Hs & ->)]; [now left|].
    unfold set_status. destruct (Nat.eqb l (v_loc v)); [|now left].
    cbn [status]. destruct Hs as [-> | ->]; auto. }
  destruct (process_analysis rd v locals w) as [[locals1|e] w1];
    cbn [snd] in *; [|exact Hstep].
  specialize (IH locals1 w1 l). cbn zeta in IH.
  destruct IH as [IH | IH]; [|now right].
  rewrite IH. exact Hstep.
Qed.

(** X2: whatever the input and the outcome, the 'status' of an object
    after a call is the one it had or one of 'hot' and 'cold': 'neutral' is
    never stored, and no status is ever removed. *)
Theorem status_written_is_hot_or_cold
    (Template : string -> outcome renderer) (snap : Snapshot) (tpl : string)
    (w : World) (l : loc) :
  let w' := snd (message_templater Template snap tpl w) in
  status (heap w' l) = status (heap w l)
  \/ status (heap w' l) = Some "hot"
  \/ status (heap w' l) = Some "cold".
Proof.
  cbn zeta. rewrite templater_unfold.
  destruct (Template tpl) as [rd|e]; [|now left].
  pose proof (loop_writes rd (visits snap) (mkLocals None "")
                (at_start w snap) l) as Hw. cbn zeta in Hw.
  destruct (for_each _ _ _ _) as [[locals|e] w1]; exact Hw.
Qed.

(** ** Frequencies other than 'once' *)

Lemma fires_without_once (w : World) (v : Visit) :
  alert_frequency (config (heap w (v_loc v))) <> "once" ->
  fires w v = alerting w v.
Proof.
  intros Hfreq. unfold fires, alerting.
  apply String.eqb_neq in Hfreq. rewrite Hfreq. cbn [andb negb].
  now rewrite andb_true_r.
Qed.

(** X3: when no occurrence of the snapshot has the frequency 'once', a
    regular cycle renders every occurrence that is hot or cold and enabled,
    whatever the store holds; and when the same snapshot is passed again
    the same occurrences are rendered again, each now with a last status
    equal to its status. *)
Theorem without_once_every_alert_repeats
    (Template : string -> outcome renderer) (snap : Snapshot) (tpl : string)
    (w : World) (rd : renderer) (r : Context -> string) :
  Template tpl = Ok rd ->
  (forall c, rd c = Ok (r c)) ->
  cycle_ok w snap = true ->
  (forall v, In v (visits snap) ->
             alert_frequency (config (heap w (v_loc v))) <> "once") ->
  let w0 := at_start w snap in
  let w1 := snd (message_templater Template snap tpl w) in
  let w2 := at_start w1 snap in
  fst (message_templater Template snap tpl w)
  = Ok (join (map (fun v => r (context_of w0 v))
                (filter (alerting w) (visits snap))))
  /\ fst (message_templater Template snap tpl w1)
     = Ok (join (map (fun v => r (context_of w2 v))
                   (filter (alerting w) (visits snap))))
  /\ forall v, In v (filter (alerting w) (visits snap)) ->
       ctx_last_status (context_of w2 v) = ctx_status (context_of w2 v).
Proof.
  intros Htpl Hrd Hok Hfreq. cbn zeta.
  pose proof (cycle_ok_again Template snap tpl w rd r Htpl Hrd Hok) as Hok1.
  assert (Hfired0 : fired (at_start w snap) (visits snap)
                    = filter (alerting w) (visits snap)).
  { unfold fired. apply filter_ext_in. intros v Hin.
    rewrite fires_without_once; [reflexivity|]. now apply Hfreq. }
  set (w1 := snd (message_templater Template snap tpl w)) in *.
  assert (Hsame : forall v, In v (visits snap) ->
            config (heap w1 (v_loc v)) = config (heap w (v_loc v))
            /\ last_row (heap w1 (v_loc v)) = last_row (heap w (v_loc v))).
  { intros v Hin. unfold w1.
    rewrite (heap_after_run Template snap tpl w rd r Htpl Hrd Hok v Hin).
    destruct (fires (at_start w snap) v); split; reflexivity. }
  assert (Hfired1 : fired (at_start w1 snap) (visits snap)
                    = filter (alerting w) (visits snap)).
  { unfold fired. apply filter_ext_in. intros v Hin.
    destruct (Hsame v Hin) as [Hc Hr].
    rewrite fires_without_once.
    - unfold alerting. cbn [at_start heap]. now rewrite Hc, Hr.
    - cbn [at_start heap]. rewrite Hc. now apply Hfreq. }
  split; [|split].
  - rewrite (run_eq Template snap tpl w rd r Htpl Hrd Hok). cbn [fst].
    now rewrite Hfired0.
  - rewrite (run_eq Template snap tpl w1 rd r Htpl Hrd Hok1). cbn [fst].
    now rewrite Hfired1.
  - intros v Hin. rewrite <- Hfired0 in Hin.
    apply in_fired in Hin as [Hin Hf].
    unfold context_of. cbn [ctx_last_status ctx_status].
    unfold stored_status_at, stored_status, current_status.
    cbn [at_start last_analysis heap]. unfold w1 at 1.
    rewrite (lookup_after_run Template snap tpl w rd r Htpl Hrd Hok snap v Hin).
    unfold w1.
    rewrite (heap_after_run Template snap tpl w rd r Htpl Hrd Hok v Hin), Hf.
    reflexivity.
Qed.

Lemma without_once_every_alert_repeats_witness :
  let w := mkWorld (Scenario.heap_of [(1, Scenario.hot_always)]) [] in
  let w1 := snd (Scenario.run (Scenario.one 1) w) in
  fst (Scenario.run (Scenario.one 1) w) = Ok "rsi is hot: 71.23400000"
  /\ fst (Scenario.run (Scenario.one 1) w1) = Ok "rsi is hot: 71.23400000".
Proof.
  cbv zeta.
  destruct (without_once_every_alert_repeats Scenario.Template
              (Scenario.one 1) Scenario.basic
              (mkWorld (Scenario.heap_of [(1, Scenario.hot_always)]) [])
              Scenario.render_basic Scenario.text_basic eq_refl
              (fun c => eq_refl) eq_refl)
    as (Hfirst & Hsecond & _).
  { intros v [<- | []]. cbv. discriminate. }
  split; [exact Hfirst | exact Hsecond].
Defined.

(** ** Malformed occurrences *)

Lemma signal_loop_missing (a : Analysis) (row : Row) (older : list Row)
    (signals : list string) (s : string) :
  rev (result a) = row :: older ->
  find (fun s => negb (has_key s row)) signals = Some s ->
  forall values latest,
    signal_loop a signals values latest = Raise (KeyError s).
Proof.
  intros Hrev. induction signals as [|s0 signals IH]; [discriminate|].
  cbn [find signal_loop]. intros Hfind values latest.
  unfold iloc_last, row_item. rewrite Hrev.
  unfold has_key in Hfind at 1.
  destruct (dict_get s0 row) as [x|]; cbn [negb] in Hfind.
  - now apply IH.
  - now injection Hfind as ->.
Qed.

(** The body on a defective occurrence raises and writes nothing. *)
Lemma defect_raises (rd : renderer) (v : Visit) (locals : Locals) (w : World)
    (e : exn) :
  defect (heap w (v_loc v)) = Some e ->
  process_analysis rd v locals w = (Raise e, w).
Proof.
  unfold defect, process_analysis. unfold bind at 1, read at 1.
  cbn beta iota.
  destruct (signal (config (heap w (v_loc v)))) as [|s0 signals] eqn:Hsig;
    [discriminate|].
  destruct (rev (result (heap w (v_loc v)))) as [|row older] eqn:Hrev.
  - intros H. injection H as <-. unfold bind, lift.
    cbn [signal_loop]. unfold iloc_last. now rewrite Hrev.
  - destruct (find _ _) as [s|] eqn:Hfind.
    + intros H. injection H as <-. unfold bind, lift.
      now rewrite (signal_loop_missing _ _ _ _ _ Hrev Hfind).
    + unfold bind at 1, lift at 1.
      rewrite (signal_loop_ok _ _ _ _ Hrev (find_none_all _ _ Hfind)).
      cbn beta iota. unfold bind at 1, lift at 1. cbn [snd fst].
      unfold bind at 1, lift at 1.
      unfold classify, has_key, flag, row_item.
      destruct (dict_get "is_hot" row) as [hot|].
      * destruct (truthy hot); [discriminate|].
        destruct (dict_get "is_cold" row); [discriminate|].
        intros H. now injection H as <-.
      * intros H. now injection H as <-.
Qed.

Lemma loop_aborts (rd : renderer) (r : Context -> string)
    (pre : list Visit) (v : Visit) (post : list Visit) (locals : Locals)
    (w : World) (e : exn) :
  (forall c, rd c = Ok (r c)) ->
  distinct (locs (pre ++ v :: post)) = true ->
  alias_ok (last_analysis w) (pre ++ v :: post) = true ->
  forallb (fun v' => well_formed (heap w (v_loc v'))) pre = true ->
  defect (heap w (v_loc v)) = Some e ->
  for_each (pre ++ v :: post) (process_analysis rd) locals w
  = (Raise e, mkWorld (heap_after w pre) (last_analysis w)).
Proof.
  intros Hrd Hd Ha Hwf Hdefect.
  destruct (loop_spec rd r pre locals w) as [latest Hloop].
  { intros v' _ _. apply Hrd. }
  { unfold locs in Hd. rewrite map_app in Hd. exact (distinct_app_l _ _ Hd). }
  { exact (alias_ok_app_l _ _ _ Ha). }
  { exact Hwf. }
  pose proof (agree_after_prefix w pre (v :: post) Hd Ha) as Hag.
  rewrite for_each_app, Hloop. cbn [for_each]. unfold bind.
  rewrite (defect_raises rd v _ _ e); [reflexivity|].
  rewrite (proj1 (Hag v (or_introl eq_refl))). exact Hdefect.
Qed.

(** X4: an occurrence that names a signal and has no row, lacks a signal
    column, lacks [is_hot], or is not hot and lacks [is_cold], aborts the
    call with [IndexError] or the [KeyError] of the missing column: the
    statuses of the occurrences that fired before it stay written, nothing
    is written for it or for the occurrences after it, and the store is not
    merged. *)
Theorem malformed_occurrence_aborts
    (Template : string -> outcome renderer) (snap : Snapshot) (tpl : string)
    (w : World) (rd : renderer) (r : Context -> string)
    (pre : list Visit) (v : Visit) (post : list Visit) (e : exn) :
  Template tpl = Ok rd ->
  (forall c, rd c = Ok (r c)) ->
  visits snap = pre ++ v :: post ->
  distinct (locs (visits snap)) = true ->
  alias_ok (effective_store w snap) (visits snap) = true ->
  forallb (fun v' => well_formed (heap w (v_loc v'))) pre = true ->
  defect (heap w (v_loc v)) = Some e ->
  let run := message_templater Template snap tpl w in
  fst run = Raise e
  /\ last_analysis (snd run) = effective_store w snap
  /\ heap (snd run) = heap_after (at_start w snap) pre
  /\ forall v', In v' (v :: post) ->
       heap (snd run) (v_loc v') = heap w (v_loc v').
Proof.
  intros Htpl Hrd Hvisits Hd Ha Hwf Hdefect. cbn zeta.
  rewrite Hvisits in Hd, Ha.
  rewrite templater_unfold, Htpl, Hvisits.
  rewrite (loop_aborts rd r pre v post (mkLocals None "") (at_start w snap) e
             Hrd Hd Ha Hwf Hdefect).
  cbn [fst snd heap last_analysis at_start].
  split; [reflexivity|]. split; [reflexivity|]. split; [reflexivity|].
  intros v' Hin.
  exact (proj1 (agree_after_prefix (at_start w snap) pre (v :: post) Hd Ha
                  v' Hin)).
Qed.

Lemma malformed_occurrence_aborts_witness :
  let run := Scenario.run (Scenario.two 1 2) Scenario.hot_then_no_rows in
  fst run = Raise IndexError
  /\ last_analysis (snd run) = Scenario.two 1 2
  /\ heap (snd run) 2 = Scenario.no_rows.
Proof.
  cbv zeta.
  destruct (malformed_occurrence_aborts Scenario.Template (Scenario.two 1 2)
              Scenario.basic Scenario.hot_then_no_rows Scenario.render_basic
              Scenario.text_basic [mkVisit "ex1" "BTC/USD" "rsi" 0 1]
              (mkVisit "ex1" "BTC/USD" "rsi" 1 2) [] IndexError
              eq_refl (fun c => eq_refl) eq_refl eq_refl eq_refl eq_refl
              eq_refl)
    as (Hraise & Hstore & _ & Hrest).
  split; [exact Hraise|]. split; [exact Hstore|].
  exact (Hrest (mkVisit "ex1" "BTC/USD" "rsi" 1 2) (or_introl eq_refl)).
Defined.

(** ** An occurrence that names no signal *)

(** X5: [latest_result] is bound inside the loop over the signals (line
    240).  An occurrence whose signal list is empty raises
    [UnboundLocalError] when no occurrence came before it; otherwise it is
    judged on the last row of the occurrence before it: that row decides
    whether it is hot or cold and which status is compared, written and
    rendered, its own DataFrame is not read, and the values passed to the
    template are empty. *)
Theorem occurrence_without_signal
    (rd : renderer) (v : Visit) (w : World) (message : string) :
  signal (config (heap w (v_loc v))) = [] ->
  process_analysis rd v (mkLocals None message) w
  = (Raise UnboundLocalError, w)
  /\ forall earlier,
       has_key "is_hot" earlier = true -> has_key "is_cold" earlier = true ->
       let a := heap w (v_loc v) in
       let current := status_of earlier in
       let last := stored_status_at w v in
       process_analysis rd v (mkLocals (Some earlier) message) w
       = if (flag "is_hot" earlier || flag "is_cold" earlier)
            && should_alert (config a) last current
         then
           let w1 := mkWorld (set_status (v_loc v) current (heap w))
                       (last_analysis w) in
           match rd (mkContext [] (v_exchange v) (v_market v) (v_indicator v)
                       (v_index v)
                       (mkAnalysis (config a) (result a) (Some current))
                       current last) with
           | Ok text =>
               (Ok (mkLocals (Some earlier) (message ++ text)%string), w1)
           | Raise e => (Raise e, w1)
           end
         else (Ok (mkLocals (Some earlier) message), w).
Proof.
  intros Hsig. split.
  - unfold process_analysis, bind, read, lift. rewrite Hsig. reflexivity.
  - intros earlier Hhot Hcold. cbn zeta.
    unfold process_analysis. unfold bind at 1, read at 1. cbn beta iota.
    rewrite Hsig. unfold bind at 1, lift at 1. cbn [signal_loop].
    cbn beta iota. unfold bind at 1, lift at 1. cbn [snd fst latest_result].
    unfold bind at 1, lift at 1. rewrite (classify_ok _ Hhot Hcold).
    unfold bind at 1, lift at 1. rewrite (alert_worthy_ok _ Hhot Hcold).
    cbn beta iota. cbn [new_message].
    destruct (flag "is_hot" earlier || flag "is_cold" earlier); cbn [andb];
      [|reflexivity].
    unfold bind at 1, get_last_status at 1. cbn beta iota.
    fold (stored_status_at w v).
    destruct (should_alert _ _ _); [|reflexivity].
    unfold bind, write_status, read, lift, ret. cbn [heap last_analysis].
    unfold set_status at 1. rewrite Nat.eqb_refl.
    destruct (rd _) as [text|e]; reflexivity.
Qed.

Lemma occurrence_without_signal_witness :
  let quiet := mkAnalysis (mkConfig [] "always" true)
                 [Scenario.row false false] None in
  let w := mkWorld (Scenario.heap_of [(1, Scenario.hot_always); (2, quiet)])
             [] in
  fst (Scenario.run (Scenario.one 2) w) = Raise UnboundLocalError
  /\ fst (process_analysis Scenario.render_basic
            (mkVisit "ex1" "BTC/USD" "rsi" 1 2)
            (mkLocals (Some (Scenario.row true false)) "") w)
     = Ok (mkLocals (Some (Scenario.row true false)) "rsi is hot: ").
Proof.
  cbv zeta. split; [reflexivity|].
  pose proof (occurrence_without_signal Scenario.render_basic
                (mkVisit "ex1" "BTC/USD" "rsi" 1 2)
                (mkWorld (Scenario.heap_of
                            [(1, Scenario.hot_always);
                             (2, mkAnalysis (mkConfig [] "always" true)
                                   [Scenario.row false false] None)]) [])
                "" eq_refl) as [_ Hrow].
  rewrite (Hrow (Scenario.row true false) eq_refl eq_refl). reflexivity.
Defined.

(** ** The configuration *)

Lemma fold_configured (required : Group) (start : bool) :
  fold_left (fun notifier_configured item =>
               if negb (setting_truthy (snd item)) then false
               else notifier_configured) required start
  = start && forallb (fun item => setting_truthy (snd item)) required.
Proof.
  revert start. induction required as [|item required IH]; intros start;
    cbn [fold_left forallb]; [now rewrite andb_true_r|].
  rewrite IH. destruct (setting_truthy (snd item)), start; reflexivity.
Qed.

(** X6: [_validate_required_config] raises [KeyError] when the notifier has
    no section or its section no 'required' group; otherwise it answers
    whether every required value is truthy, which is also the case when
    there is no required value at all. *)
Theorem validate_required_config_spec
    (notifier : string) (notifier_config : NotifierConfig) :
  (dict_get notifier notifier_config = None ->
   validate_required_config notifier notifier_config
   = Raise (KeyError notifier))
  /\ (forall section,
        dict_get notifier notifier_config = Some section ->
        dict_get "required" section = None ->
        validate_required_config notifier notifier_config
        = Raise (KeyError "required"))
  /\ (forall section required,
        dict_get notifier notifier_config = Some section ->
        dict_get "required" section = Some required ->
        exists answer,
          validate_required_config notifier notifier_config = Ok answer
          /\ (answer = true <->
              forall key x, In (key, x) required -> setting_truthy x = true)).
Proof.
  unfold validate_required_config. split; [|split].
  - now intros ->.
  - now intros section -> ->.
  - intros section required -> ->. eexists. split; [reflexivity|].
    rewrite fold_configured. cbn [andb]. rewrite forallb_forall. split.
    + intros H key x Hin. exact (H (key, x) Hin).
    + intros H [key x] Hin. exact (H key x Hin).
Qed.

(** ** [__init__] *)

Lemma channel_eqb_eq (a b : Channel) : channel_eqb a b = true <-> a = b.
Proof. destruct a, b; cbn; split; intros H; congruence. Qed.

Lemma channel_eqb_refl (a : Channel) : channel_eqb a a = true.
Proof. now apply channel_eqb_eq. Qed.

Lemma in_init_order (c : Channel) : In c init_order.
Proof. destruct c; cbn; tauto. Qed.

Lemma validate_required_all_set (cfg : NotifierConfig) (c : Channel) :
  match dict_get (channel_name c) cfg with
  | None => validate_required_config (channel_name c) cfg
            = Raise (KeyError (channel_name c))
  | Some section =>
      match dict_get "required" section with
      | None => validate_required_config (channel_name c) cfg
                = Raise (KeyError "required")
      | Some _ => validate_required_config (channel_name c) cfg
                  = Ok (required_all_set cfg c)
      end
  end.
Proof.
  unfold validate_required_config, required_all_set.
  destruct (dict_get (channel_name c) cfg) as [section|]; [|reflexivity].
  destruct (dict_get "required" section) as [required|]; [|reflexivity].
  now rewrite fold_configured.
Qed.

Lemma config_item_has (cfg : NotifierConfig) (notifier group key : string) :
  match config_item cfg notifier group key with
  | Ok _ => has_item cfg notifier group key = true
  | Raise e => has_item cfg notifier group key = false
               /\ exists k, e = KeyError k
  end.
Proof.
  unfold config_item, has_item.
  destruct (dict_get notifier cfg) as [section|]; [|eauto].
  destruct (dict_get group section) as [items|]; [|eauto].
  destruct (dict_get key items); eauto.
Qed.

Lemma read_kwargs_has (cfg : NotifierConfig) (notifier : string)
    (kwargs : list (string * (string * string))) :
  match read_kwargs cfg notifier kwargs with
  | Ok args =>
      forallb (fun kw => has_item cfg notifier (fst (snd kw)) (snd (snd kw)))
        kwargs = true
      /\ map fst args = map fst kwargs
  | Raise e =>
      forallb (fun kw => has_item cfg notifier (fst (snd kw)) (snd (snd kw)))
        kwargs = false
      /\ exists k, e = KeyError k
  end.
Proof.
  induction kwargs as [|[name [group key]] kwargs IH];
    cbn [read_kwargs forallb fst snd]; [auto|].
  pose proof (config_item_has cfg notifier group key) as Hitem.
  destruct (config_item cfg notifier group key) as [x|e].
  - rewrite Hitem. cbn [andb].
    destruct (read_kwargs cfg notifier kwargs) as [args|e].
    + destruct IH as [-> Hnames]. cbn [map fst]. now rewrite Hnames.
    + exact IH.
  - destruct Hitem as [-> Hkey]. auto.
Qed.

(** One block of [__init__] in closed form. *)
Lemma setup_spec (c : Channel) (self : Notifier) (enabled : list string) :
  match setup c (self, enabled) with
  | Ok (self', enabled') =>
      usable (notifier_config self) c = true
      /\ notifier_config self' = notifier_config self
      /\ configured self'
         = update (configured self) c
             (required_all_set (notifier_config self) c)
      /\ enabled'
         = enabled ++ (if required_all_set (notifier_config self) c
                       then [channel_name c] else [])
      /\ (if required_all_set (notifier_config self) c
          then exists args,
                 read_kwargs (notifier_config self) (channel_name c)
                   (client_kwargs c) = Ok args
                 /\ client self' = update (client self) c (Some args)
          else client self' = client self)
  | Raise e =>
      usable (notifier_config self) c = false /\ exists k, e = KeyError k
  end.
Proof.
  unfold setup. cbn [fst snd].
  pose proof (validate_required_all_set (notifier_config self) c) as Hv.
  unfold usable, required_all_set in *.
  destruct (dict_get (channel_name c) (notifier_config self)) as [section|];
    [|rewrite Hv; eauto].
  destruct (dict_get "required" section) as [required|];
    [|rewrite Hv; eauto].
  rewrite Hv.
  destruct (forallb (fun item => setting_truthy (snd item)) required).
  - pose proof (read_kwargs_has (notifier_config self) (channel_name c)
                  (client_kwargs c)) as Hk.
    destruct (read_kwargs _ _ _) as [args|e]; [|exact Hk].
    destruct Hk as [Hk _]. cbn [notifier_config configured client].
    split; [exact Hk|]. split; [reflexivity|]. split; [reflexivity|].
    split; [reflexivity|]. exists args. split; reflexivity.
  - cbn [notifier_config configured client]. rewrite app_nil_r.
    split; [reflexivity|]. split; [reflexivity|]. split; [reflexivity|].
    split; reflexivity.
Qed.

Lemma setup_all_spec (cs : list Channel) :
  forall self enabled,
    (forall c, In c cs -> usable (notifier_config self) c = true) ->
    exists self' enabled',
      setup_all cs (self, enabled) = Ok (self', enabled')
      /\ notifier_config self' = notifier_config self
      /\ enabled'
         = enabled ++ map channel_name
                        (filter (required_all_set (notifier_config self)) cs)
      /\ (forall c,
            In c cs ->
            configured self' c = required_all_set (notifier_config self) c)
      /\ (forall c, ~ In c cs ->
            configured self' c = configured self c
            /\ client self' c = client self c)
      /\ (forall c,
            In c cs ->
            if required_all_set (notifier_config self) c
            then exists args,
                   read_kwargs (notifier_config self) (channel_name c)
                     (client_kwargs c) = Ok args
                   /\ client self' c = Some args
            else client self' c = client self c).
Proof.
  induction cs as [|c cs IH]; intros self enabled Husable.
  - exists self, enabled. cbn [setup_all filter map In].
    rewrite app_nil_r. repeat split; tauto.
  - cbn [setup_all].
    pose proof (setup_spec c self enabled) as Hs.
    destruct (setup c (self, enabled)) as [[self1 enabled1]|e].
    2:{ destruct Hs as [Hno _].
        rewrite (Husable c (or_introl eq_refl)) in Hno. discriminate. }
    destruct Hs as (_ & Hcfg & Hflags & Hen & Hclient).
    destruct (IH self1 enabled1) as (self' & enabled' & Hrun & Hcfg' & Hen'
                                     & Hin' & Hout' & Hcl').
    { intros c' Hin. rewrite Hcfg. apply Husable. now right. }
    rewrite Hcfg in *.
    exists self', enabled'. split; [exact Hrun|]. split; [exact Hcfg'|].
    assert (Hdec : forall c', In c' cs \/ ~ In c' cs).
    { intros c'. destruct (existsb (channel_eqb c') cs) eqn:Hex.
      - left. apply existsb_exists in Hex as (x & Hx & Heq).
        apply channel_eqb_eq in Heq. now subst.
      - right. intros Hin.
        assert (existsb (channel_eqb c') cs = true); [|congruence].
        apply existsb_exists. exists c'. split; [exact Hin|].
        apply channel_eqb_refl. }
    split; [|split; [|split]].
    + rewrite Hen', Hen. cbn [filter].
      destruct (required_all_set (notifier_config self) c); cbn [map app].
      * now rewrite <- app_assoc.
      * now rewrite app_nil_r.
    + intros c' [<- | Hin].
      * destruct (Hdec c) as [Hin | Hnot]; [now apply Hin'|].
        rewrite (proj1 (Hout' c Hnot)), Hflags. unfold update.
        now rewrite channel_eqb_refl.
      * now apply Hin'.
    + intros c' Hnot. cbn [In] in Hnot.
      assert (Hne : c' <> c) by (intros ->; apply Hnot; now left).
      assert (Hnot' : ~ In c' cs) by (intros Hin; apply Hnot; now right).
      destruct (Hout' c' Hnot') as [Hf Hc]. rewrite Hf, Hc, Hflags.
      unfold update. destruct (channel_eqb c' c) eqn:Heq.
      * apply channel_eqb_eq in Heq. contradiction.
      * split; [reflexivity|].
        destruct (required_all_set (notifier_config self) c).
        -- destruct Hclient as (args & _ & ->). unfold update.
           now rewrite Heq.
        -- now rewrite Hclient.
    + intros c' Hin.
      destruct (Hdec c') as [Hlater | Hnot].
      * specialize (Hcl' c' Hlater).
        destruct (required_all_set (notifier_config self) c') eqn:Hreq;
          [exact Hcl'|].
        rewrite Hcl'.
        destruct (required_all_set (notifier_config self) c) eqn:Hreqc.
        -- destruct Hclient as (args & _ & ->). unfold update.
           destruct (channel_eqb c' c) eqn:Heq; [|reflexivity].
           apply channel_eqb_eq in Heq. subst. congruence.
        -- now rewrite Hclient.
      * destruct Hin as [<- | Hin]; [|contradiction].
        rewrite (proj2 (Hout' c Hnot)).
        destruct (required_all_set (notifier_config self) c).
        -- destruct Hclient as (args & Hargs & ->).
           exists args. split; [exact Hargs|]. unfold update.
           now rewrite channel_eqb_refl.
        -- now rewrite Hclient.
Qed.

Lemma setup_all_fails (cs : list Channel) (c : Channel) :
  In c cs ->
  forall self enabled,
    usable (notifier_config self) c = false ->
    exists key, setup_all cs (self, enabled) = Raise (KeyError key).
Proof.
  induction cs as [|c0 cs IH]; intros Hin self enabled Hbad; [destruct Hin|].
  cbn [setup_all]. pose proof (setup_spec c0 self enabled) as Hs.
  destruct (setup c0 (self, enabled)) as [[self1 enabled1]|e].
  - destruct Hs as (Hok & Hcfg & _).
    destruct Hin as [-> | Hin]; [congruence|].
    apply IH; [exact Hin|]. now rewrite Hcfg.
  - destruct Hs as (_ & key & ->). now exists key.
Qed.

(** X7: when the section of each of the six notifiers is usable (it is
    present with its 'required' group and, if every required value is set,
    has every key its client is built from), [__init__] returns: the
    notifiers marked configured are exactly those whose required values are
    all truthy, each of them has a client built from the values of its
    keys and the others have none, and the list of enabled notifiers is
    their names in the order twilio, discord, slack, gmail, telegram,
    webhook. *)
Theorem init_enables_configured (cfg : NotifierConfig) :
  (forall c, usable cfg c = true) ->
  exists self enabled,
    init cfg = Ok (self, enabled)
    /\ notifier_config self = cfg
    /\ (forall c, configured self c = required_all_set cfg c)
    /\ enabled = map channel_name (filter (required_all_set cfg) init_order)
    /\ forall c,
         if required_all_set cfg c
         then exists args,
                read_kwargs cfg (channel_name c) (client_kwargs c) = Ok args
                /\ client self c = Some args
         else client self c = None.
Proof.
  intros Husable. unfold init.
  destruct (setup_all_spec init_order
              (mkNotifier cfg (fun _ => false) (fun _ => None)) [])
    as (self & enabled & Hrun & Hcfg & Hen & Hin & _ & Hcl).
  { intros c _. apply Husable. }
  cbn [notifier_config client] in *.
  exists self, enabled. split; [exact Hrun|]. split; [exact Hcfg|].
  split; [|split].
  - intros c. apply Hin, in_init_order.
  - exact Hen.
  - intros c. apply Hcl, in_init_order.
Qed.

Lemma init_enables_configured_witness :
  exists self enabled,
    init Setup.config = Ok (self, enabled)
    /\ enabled = ["discord"; "slack"]
    /\ configured self Slack = true
    /\ configured self Telegram = false
    /\ client self Slack
       = Some [("slack_webhook", SStr "https://slack.example/hook")]
    /\ client self Telegram = None.
Proof.
  destruct (init_enables_configured Setup.config)
    as (self & enabled & Hrun & _ & Hflags & Hen & Hcl).
  { intros c. destruct c; reflexivity. }
  exists self, enabled. split; [exact Hrun|]. split; [exact Hen|].
  split; [exact (Hflags Slack)|]. split; [exact (Hflags Telegram)|].
  split.
  - destruct (Hcl Slack) as (args & Hargs & ->).
    cbv in Hargs. now injection Hargs as <-.
  - exact (Hcl Telegram).
Defined.

(** X8: when the section of one of the six notifiers is not usable (it is
    missing, has no 'required' group, or has every required value set, as
    when the group is empty, while a key its client is built from is
    missing), [__init__] raises a [KeyError] and no notifier is built,
    whatever the other sections hold. *)
Theorem init_needs_every_section (cfg : NotifierConfig) (c : Channel) :
  usable cfg c = false ->
  exists key, init cfg = Raise (KeyError key).
Proof.
  intros Hbad. unfold init.
  exact (setup_all_fails init_order c (in_init_order c)
           (mkNotifier cfg (fun _ => false) (fun _ => None)) [] Hbad).
Qed.

Lemma init_needs_every_section_witness :
  (exists key, init Setup.config_emptied = Raise (KeyError key))
  /\ init Setup.config_emptied = Raise (KeyError "token").
Proof.
  split.
  - exact (init_needs_every_section Setup.config_emptied Telegram eq_refl).
  - reflexivity.
Defined.

(** ** The templated notifiers *)

Lemma subsequence_empty {A : Type} (ys : list A) : subsequence [] ys.
Proof.
  induction ys as [|y ys IH]; [apply subsequence_nil|].
  now apply subsequence_skip.
Qed.

Section DispatchFacts.
Variable Template : string -> outcome renderer.

Lemma notify_text_sent (self : Notifier) (c : Channel) (snap : Snapshot)
    (sv : Service) :
  outbox (snd (notify_text Template self c snap sv)) = outbox sv
  \/ exists message,
       outbox (snd (notify_text Template self c snap sv))
       = outbox sv ++ [(c, message)]
       /\ configured self c = true /\ blank message = false.
Proof.
  unfold notify_text. destruct (configured self c); [|now left].
  destruct (config_item _ _ _ _) as [template|e]; [|now left].
  destruct (templater_on Template template snap (world sv))
    as [[message|e] w']; [|now left].
  destruct (blank message) eqn:Hblank; [now left|].
  right. exists message. auto.
Qed.

Lemma notify_each_sent (self : Notifier) (cs : list Channel)
    (snap : Snapshot) :
  forall sv,
    exists sent,
      outbox (snd (notify_each Template self cs snap sv)) = outbox sv ++ sent
      /\ subsequence (map fst sent) cs
      /\ forall c message,
           In (c, message) sent ->
           configured self c = true /\ blank message = false.
Proof.
  induction cs as [|c cs IH]; intros sv; cbn [notify_each].
  - exists []. cbn [snd map]. rewrite app_nil_r.
    split; [reflexivity|]. split; [apply subsequence_nil | intros ? ? []].
  - pose proof (notify_text_sent self c snap sv) as Hone.
    destruct (notify_text Template self c snap sv) as [[u|e] sv1];
      cbn [snd] in *.
    + destruct (IH sv1) as (sent & Hout & Hsub & Hall).
      destruct Hone as [Hsame | (message & Hone & Hc & Hb)].
      * exists sent. rewrite Hout, Hsame.
        split; [reflexivity|].
        split; [now apply subsequence_skip | exact Hall].
      * exists ((c, message) :: sent). rewrite Hout, Hone, <- app_assoc.
        split; [reflexivity|].
        split; [cbn [map fst]; now apply subsequence_take|].
        intros c' m' [Heq | Hin]; [|now apply Hall].
        injection Heq as <- <-. auto.
    + destruct Hone as [Hsame | (message & Hone & Hc & Hb)].
      * exists []. rewrite app_nil_r. split; [exact Hsame|].
        split; [apply subsequence_empty | intros ? ? []].
      * exists [(c, message)]. split; [exact Hone|]. split.
        -- cbn [map fst]. apply subsequence_take, subsequence_empty.
        -- intros c' m' [Heq | []]. injection Heq as <- <-. auto.
Qed.

End DispatchFacts.

(** X9: whatever the notifier, the snapshot and the state, the five
    templated notifiers of [notify_all] only add to the calls made on the
    clients: at most one message per notifier, in the order slack, discord,
    twilio, gmail, telegram, each to a configured notifier and none of them
    empty or made of white space only. *)
Theorem notify_all_texts_sends
    (Template : string -> outcome renderer) (self : Notifier)
    (snap : Snapshot) (sv : Service) :
  exists sent,
    outbox (snd (notify_all_texts Template self snap sv)) = outbox sv ++ sent
    /\ subsequence (map fst sent) text_order
    /\ forall c message,
         In (c, message) sent ->
         configured self c = true /\ blank message = false.
Proof. exact (notify_each_sent Template self text_order snap sv). Qed.

(** ** Several notifiers and the frequency 'once' *)

Lemma heap_after_quiet (w : World) (vs : list Visit) :
  (forall v, In v vs -> fires w v = false) ->
  forall h, fold_left (fire_status w) vs h = h.
Proof.
  induction vs as [|v vs IH]; intros Hquiet h; cbn [fold_left];
    [reflexivity|].
  unfold fire_status at 2. rewrite (Hquiet v (or_introl eq_refl)).
  apply IH. intros v' Hin. apply Hquiet. now right.
Qed.

Lemma lookup_effective_merged (h : Heap) (store snap : Snapshot) (v : Visit) :
  keys_ok snap = true -> In v (visits snap) ->
  lookup_loc (effective_store (mkWorld h (dict_merge store snap)) snap)
    (v_exchange v) (v_market v) (v_indicator v) (v_index v)
  = Some (v_loc v).
Proof.
  intros Hkeys Hin. unfold effective_store. cbn [last_analysis].
  destruct (dict_is_empty (dict_merge store snap)).
  - now apply lookup_visit.
  - now apply lookup_merged.
Qed.

Section Settled.
Variable Template : string -> outcome renderer.
Variable snap : Snapshot.

(** A call on a settled world renders nothing, whatever the template, and
    leaves a settled world with the same heap. *)
Lemma settled_run (w : World) (tpl : string) (rd0 : renderer) :
  settled w snap ->
  Template tpl = Ok rd0 ->
  exists w',
    message_templater Template snap tpl w = (Ok "", w')
    /\ heap w' = heap w
    /\ settled w' snap.
Proof.
  intros [Hok Hquiet] Htpl.
  destruct (cycle_ok_parts _ _ Hok) as (Hkeys & Hd & Ha & Hwf).
  rewrite templater_unfold, Htpl.
  destruct (loop_spec rd0 (fun _ => "") (visits snap) (mkLocals None "")
              (at_start w snap)) as [latest Hloop]; auto.
  { intros v Hin Hf. rewrite (proj1 (Hquiet v Hin)) in Hf. discriminate. }
  rewrite Hloop. unfold fired.
  rewrite (filter_none _ _ (fun v Hin => proj1 (Hquiet v Hin))).
  unfold heap_after.
  rewrite (heap_after_quiet _ _ (fun v Hin => proj1 (Hquiet v Hin))).
  cbn [map join fold_right new_message append heap last_analysis at_start].
  eexists. split; [reflexivity|]. cbn [heap]. split; [reflexivity|].
  assert (Hlook : forall v, In v (visits snap) ->
            lookup_loc
              (effective_store
                 (mkWorld (heap w) (dict_merge (effective_store w snap) snap))
                 snap)
              (v_exchange v) (v_market v) (v_indicator v) (v_index v)
            = Some (v_loc v)).
  { intros v Hin. now apply lookup_effective_merged. }
  split.
  - unfold cycle_ok. rewrite Hkeys, Hd. cbn [andb heap].
    apply andb_true_intro. split; [|exact Hwf].
    unfold alias_ok. apply forallb_forall. intros v Hin.
    rewrite (Hlook v Hin). now rewrite Nat.eqb_refl.
  - intros v Hin. split; [|now apply Hlook].
    destruct (Hquiet v Hin) as [Hf Hl]. rewrite <- Hf.
    unfold fires, current_status, stored_status_at, stored_status.
    cbn [at_start heap last_analysis]. now rewrite (Hlook v Hin), Hl.
Qed.

(** After a regular call in which every frequency is 'once', on a store
    that held at the places of the snapshot its own objects or nothing, the
    world is settled. *)
Lemma settled_after_run (w : World) (tpl : string) (rd : renderer)
    (r : Context -> string) :
  Template tpl = Ok rd ->
  (forall c, rd c = Ok (r c)) ->
  cycle_ok w snap = true ->
  own_or_absent (effective_store w snap) (visits snap) = true ->
  (forall v, In v (visits snap) ->
             alert_frequency (config (heap w (v_loc v))) = "once") ->
  settled (snd (message_templater Template snap tpl w)) snap.
Proof.
  intros Htpl Hrd Hok Hown Hall.
  set (w1 := snd (message_templater Template snap tpl w)).
  pose proof (cycle_ok_again Template snap tpl w rd r Htpl Hrd Hok) as Hok1.
  fold w1 in Hok1. split; [exact Hok1|].
  intros v Hin.
  pose proof (lookup_after_run Template snap tpl w rd r Htpl Hrd Hok snap v
                Hin) as Hlook. fold w1 in Hlook.
  split; [|exact Hlook].
  destruct (fires (at_start w1 snap) v) eqn:Hf1; [exfalso | reflexivity].
  apply fires_iff in Hf1 as (Hworthy1 & Hen1 & Hn1).
  pose proof (heap_after_run Template snap tpl w rd r Htpl Hrd Hok v Hin)
    as Hheap. fold w1 in Hheap.
  pose proof (current_status_after_run Template snap tpl w rd r Htpl Hrd Hok
                v Hin) as Hcur. fold w1 in Hcur.
  cbn [at_start heap] in Hworthy1, Hen1, Hn1.
  assert (Hcfg : config (heap w1 (v_loc v)) = config (heap w (v_loc v))
                 /\ last_row (heap w1 (v_loc v))
                    = last_row (heap w (v_loc v))).
  { rewrite Hheap. destruct (fires (at_start w snap) v); split; reflexivity. }
  destruct Hcfg as [Hcfg Hrow]. rewrite Hcfg in Hen1, Hn1.
  rewrite Hrow in Hworthy1.
  apply Hn1. split; [now apply Hall|].
  change (current_status (at_start w1 snap) v) with (current_status w1 v).
  rewrite Hcur.
  unfold stored_status_at, stored_status. cbn [at_start last_analysis heap].
  rewrite Hlook, Hheap.
  destruct (fires (at_start w snap) v) eqn:Hf0; [reflexivity|].
  assert (Hsame0 : stored_status_at (at_start w snap) v
                   = current_status (at_start w snap) v).
  { destruct (String.eqb_spec (stored_status_at (at_start w snap) v)
                (current_status (at_start w snap) v)) as [Heq | Hne];
      [exact Heq | exfalso].
    assert (Hf : fires (at_start w snap) v = true); [|congruence].
    apply fires_iff. cbn [at_start heap]. split; [exact Hworthy1|].
    split; [exact Hen1|]. intros [_ Heq]. contradiction. }
  rewrite <- Hsame0. unfold stored_status_at, stored_status.
  cbn [at_start last_analysis heap].
  unfold own_or_absent in Hown. rewrite forallb_forall in Hown.
  specialize (Hown v Hin).
  destruct (lookup_loc (effective_store w snap) _ _ _ _) as [l|] eqn:Hl.
  - apply Nat.eqb_eq in Hown. subst l. reflexivity.
  - exfalso. unfold stored_status_at, stored_status in Hsame0.
    cbn [at_start last_analysis] in Hsame0. rewrite Hl in Hsame0.
    unfold current_status in Hsame0. cbn [at_start heap] in Hsame0.
    destruct (worthy_status _ Hworthy1) as [Hs | Hs];
      rewrite Hs in Hsame0; discriminate.
Qed.

Variable self : Notifier.
Variable tpl : Channel -> string.
Variable rd : Channel -> renderer.
Variable r : Channel -> Context -> string.

Lemma notify_each_settled (cs : list Channel) :
  (forall c, In c cs -> configured self c = true ->
             ready Template self tpl rd r c) ->
  forall sv,
    settled (world sv) snap ->
    exists sv',
      notify_each Template self cs snap sv = (Ok tt, sv')
      /\ outbox sv' = outbox sv
      /\ settled (world sv') snap.
Proof.
  induction cs as [|c cs IH]; intros Hready sv Hs; cbn [notify_each].
  - exists sv. auto.
  - assert (Hrest : forall c', In c' cs -> configured self c' = true ->
                               ready Template self tpl rd r c')
      by (intros c' Hin; apply Hready; now right).
    unfold notify_text. destruct (configured self c) eqn:Hc.
    + destruct (Hready c (or_introl eq_refl) Hc) as (Hitem & Htpl & _).
      rewrite Hitem. cbn [templater_on].
      destruct (settled_run (world sv) (tpl c) (rd c) Hs Htpl)
        as (w' & -> & _ & Hs').
      cbn [blank].
      destruct (IH Hrest (mkService w' (outbox sv)) Hs')
        as (sv' & Hrun & Hout & Hs'').
      exists sv'. auto.
    + destruct (IH Hrest sv Hs) as (sv' & Hrun & Hout & Hs'').
      exists sv'. auto.
Qed.

End Settled.

(** X10: take a notifier whose configured templated notifiers have
    templates that compile and render, a regular cycle in which every
    frequency is 'once', and a store that holds at the places of the
    snapshot its own objects or nothing (as on the first call).  Then of
    the five templated notifiers of [notify_all] only the first configured
    one, in the order slack, discord, twilio, gmail, telegram, sends the
    alerts, and the others send nothing: for them the statuses written by
    the first call suppress every alert. *)
Theorem once_reaches_first_notifier_only
    (Template : string -> outcome renderer) (self : Notifier)
    (snap : Snapshot) (sv : Service) (tpl : Channel -> string)
    (rd : Channel -> renderer) (r : Channel -> Context -> string) :
  (forall c, In c text_order -> configured self c = true ->
             ready Template self tpl rd r c) ->
  cycle_ok (world sv) snap = true ->
  own_or_absent (effective_store (world sv) snap) (visits snap) = true ->
  (forall v, In v (visits snap) ->
             alert_frequency (config (heap (world sv) (v_loc v))) = "once") ->
  let w0 := at_start (world sv) snap in
  let alerts := fun c =>
    join (map (fun v => r c (context_of w0 v)) (fired w0 (visits snap))) in
  fst (notify_all_texts Template self snap sv) = Ok tt
  /\ outbox (snd (notify_all_texts Template self snap sv))
     = outbox sv
       ++ match find (configured self) text_order with
          | Some c => if blank (alerts c) then [] else [(c, alerts c)]
          | None => []
          end.
Proof.
  intros Hready Hok Hown Hall. cbn zeta. unfold notify_all_texts.
  revert Hready. generalize text_order as cs.
  induction cs as [|c cs IH]; intros Hready; cbn [notify_each find].
  - cbn [fst snd]. now rewrite app_nil_r.
  - assert (Hrest : forall c', In c' cs -> configured self c' = true ->
                               ready Template self tpl rd r c')
      by (intros c' Hin; apply Hready; now right).
    unfold notify_text at 1 2. destruct (configured self c) eqn:Hc.
    + destruct (Hready c (or_introl eq_refl) Hc) as (Hitem & Htpl & Hrd).
      rewrite Hitem. cbn [templater_on].
      pose proof (settled_after_run Template snap (world sv) (tpl c) (rd c)
                    (r c) Htpl Hrd Hok Hown Hall) as Hs.
      rewrite (run_eq Template snap (tpl c) (world sv) (rd c) (r c) Htpl Hrd
                 Hok) in *.
      cbn [snd] in Hs.
      set (m := join (map (fun v => r c (context_of (at_start (world sv) snap) v))
                        (fired (at_start (world sv) snap) (visits snap)))).
      destruct (blank m).
      * destruct (notify_each_settled Template snap self tpl rd r cs Hrest
                    (mkService _ (outbox sv)) Hs) as (sv' & -> & Hout & _).
        cbn [fst snd]. rewrite Hout. cbn [outbox]. rewrite app_nil_r.
        split; reflexivity.
      * destruct (notify_each_settled Template snap self tpl rd r cs Hrest
                    (mkService _ (outbox sv ++ [(c, m)])) Hs)
          as (sv' & -> & Hout & _).
        cbn [fst snd]. rewrite Hout. cbn [outbox]. split; reflexivity.
    + exact (IH Hrest).
Qed.

Lemma once_reaches_first_notifier_only_witness :
  let self := mkNotifier Setup.config
                (fun c => match c with
                          | Slack | Discord => true
                          | _ => false
                          end)
                (fun _ => None) in
  let sv := mkService Scenario.first_call [] in
  fst (notify_all_texts Scenario.Template self (Scenario.one 1) sv) = Ok tt
  /\ outbox (snd (notify_all_texts Scenario.Template self (Scenario.one 1) sv))
     = [(Slack, "rsi is hot: 71.23400000")].
Proof.
  cbv zeta.
  refine (once_reaches_first_notifier_only Scenario.Template
            (mkNotifier Setup.config
               (fun c => match c with
                         | Slack | Discord => true
                         | _ => false
                         end)
               (fun _ => None))
            (Scenario.one 1) (mkService Scenario.first_call [])
            (fun _ => Scenario.basic) (fun _ => Scenario.render_basic)
            (fun _ => Scenario.text_basic) _ eq_refl eq_refl _).
  - intros c _ Hc. destruct c; try discriminate Hc;
      (split; [reflexivity | split; [reflexivity | intros; reflexivity]]).
  - intros v [<- | []]. reflexivity.
Defined.

(** ** The webhook notifier *)

Module WebhookFacts.
Import Webhook.

Lemma each_app {X : Type} (xs ys : list X)
    (body : X -> Lists -> option error * Lists) (lists : Lists) :
  each (xs ++ ys) body lists
  = match each xs body lists with
    | (Some e, lists') => (Some e, lists')
    | (None, lists') => each ys body lists'
    end.
Proof.
  revert lists. induction xs as [|x xs IH]; intros lists; cbn [app each];
    [reflexivity|].
  destruct (body x lists) as [[e|] lists']; [reflexivity | apply IH].
Qed.

Lemma each_ext {X : Type} (xs : list X)
    (f g : X -> Lists -> option error * Lists) :
  (forall x lists, f x lists = g x lists) ->
  forall lists, each xs f lists = each xs g lists.
Proof.
  intros H. induction xs as [|x xs IH]; intros lists; cbn [each];
    [reflexivity|].
  rewrite H. destruct (g x lists) as [[e|] lists']; [reflexivity | apply IH].
Qed.

Lemma each_flat_map {X Y : Type} (f : X -> list Y) (xs : list X)
    (body : Y -> Lists -> option error * Lists) (lists : Lists) :
  each (flat_map f xs) body lists
  = each xs (fun x lists => each (f x) body lists) lists.
Proof.
  revert lists. induction xs as [|x xs IH]; intros lists;
    cbn [flat_map each]; [reflexivity|].
  rewrite each_app.
  destruct (each (f x) body lists) as [[e|] lists']; [reflexivity | apply IH].
Qed.

Lemma each_map {X Y : Type} (f : X -> Y) (xs : list X)
    (body : Y -> Lists -> option error * Lists) (lists : Lists) :
  each (map f xs) body lists = each xs (fun x lists => body (f x) lists) lists.
Proof.
  revert lists. induction xs as [|x xs IH]; intros lists; cbn [map each];
    [reflexivity|].
  destruct (body (f x) lists) as [[e|] lists']; [reflexivity | apply IH].
Qed.

(** The nested loops visit the lists of [places] in order. *)
Lemma flatten_places (tree : Tree) (lists : Lists) :
  flatten tree lists
  = each (places tree)
      (fun lid lists =>
         flatten_list lid (seq 0 (List.length (lists lid))) lists)
      lists.
Proof.
  unfold flatten, places. rewrite each_flat_map.
  apply each_ext; intros exchange lists1.
  rewrite each_flat_map.
  apply each_ext; intros market lists2.
  rewrite each_flat_map.
  apply each_ext; intros indicator_type lists3.
  now rewrite each_map.
Qed.

Lemma store_same (lid : ListId) (l : list Entry) (lists : Lists) :
  store lid l lists lid = l.
Proof. unfold store. now rewrite Nat.eqb_refl. Qed.

Lemma store_other (lid lid' : ListId) (l : list Entry) (lists : Lists) :
  lid' <> lid -> store lid l lists lid' = lists lid'.
Proof.
  intros Hne. unfold store.
  destruct (Nat.eqb_spec lid' lid); [contradiction | reflexivity].
Qed.

Lemma set_nth_middle {X : Type} (done : list X) (x y : X) (todo : list X) :
  set_nth (List.length done) y (done ++ x :: todo) = done ++ y :: todo.
Proof.
  induction done as [|d done IH]; cbn [List.length app set_nth];
    [reflexivity|].
  now rewrite IH.
Qed.

Lemma nth_error_middle {X : Type} (done : list X) (x : X) (todo : list X) :
  nth_error (done ++ x :: todo) (List.length done) = Some x.
Proof.
  induction done as [|d done IH]; cbn [List.length app nth_error];
    [reflexivity | exact IH].
Qed.

Lemma last_record_rows (e : Entry) :
  has_rows e = true -> exists row, last_record e = inr row /\ flat e = Record_ row.
Proof.
  destruct e as [a|row]; cbn [has_rows last_record flat]; [|discriminate].
  unfold last_row. destruct (result a) as [|r0 rows] eqn:Hres; [discriminate|].
  intros _. cbn [rev]. destruct (rev rows ++ [r0]) as [|row older] eqn:Hrev.
  - destruct (rev rows); discriminate.
  - exists row. auto.
Qed.

(** One list whose first entries are done: the good ones that follow are
    replaced, up to the first entry that raises. *)
Lemma flatten_list_from (lid : ListId) (good : list Entry) :
  forall done rest lists,
    lists lid = done ++ good ++ rest ->
    forallb has_rows good = true ->
    exists lists',
      flatten_list lid (seq (List.length done) (List.length (good ++ rest)))
        lists
      = flatten_list lid
          (seq (List.length (done ++ map flat good)) (List.length rest))
          lists'
      /\ lists' lid = (done ++ map flat good) ++ rest
      /\ forall lid', lid' <> lid -> lists' lid' = lists lid'.
Proof.
  induction good as [|e good IH]; intros done rest lists Hl Hgood.
  - exists lists. cbn [map app] in *. rewrite app_nil_r. auto.
  - cbn [forallb] in Hgood. apply andb_prop in Hgood as [He Hgood].
    destruct (last_record_rows e He) as (row & Hrow & Hflat).
    cbn [app List.length seq flatten_list]. cbn [app] in Hl.
    rewrite Hl, nth_error_middle, Hrow, set_nth_middle.
    destruct (IH (done ++ [Record_ row]) rest
                (store lid (done ++ Record_ row :: good ++ rest) lists))
      as (lists' & Hrun & Hlid & Hother).
    { rewrite store_same, <- app_assoc. reflexivity. }
    { exact Hgood. }
    exists lists'. rewrite length_app in Hrun. cbn [List.length] in Hrun.
    rewrite Nat.add_1_r in Hrun. rewrite Hrun.
    cbn [map]. rewrite Hflat.
    replace (done ++ Record_ row :: map flat good)
      with ((done ++ [Record_ row]) ++ map flat good)
      by (now rewrite <- app_assoc).
    split; [reflexivity|]. split; [exact Hlid|].
    intros lid' Hne. rewrite (Hother lid' Hne). now apply store_other.
Qed.

Lemma flatten_list_good (lid : ListId) (lists : Lists) :
  forallb has_rows (lists lid) = true ->
  exists lists',
    flatten_list lid (seq 0 (List.length (lists lid))) lists = (None, lists')
    /\ lists' lid = map flat (lists lid)
    /\ forall lid', lid' <> lid -> lists' lid' = lists lid'.
Proof.
  intros Hgood.
  destruct (flatten_list_from lid (lists lid) [] [] lists)
    as (lists' & Hrun & Hlid & Hother); [now rewrite app_nil_r | exact Hgood|].
  rewrite app_nil_r in Hrun. cbn [List.length app seq flatten_list] in *.
  rewrite app_nil_r in Hlid. exists lists'. auto.
Qed.

Lemma flatten_list_bad (lid : ListId) (lists : Lists) (good : list Entry)
    (bad : Entry) (rest : list Entry) (e : error) :
  lists lid = good ++ bad :: rest ->
  forallb has_rows good = true ->
  last_record bad = inl e ->
  exists lists',
    flatten_list lid (seq 0 (List.length (lists lid))) lists = (Some e, lists')
    /\ lists' lid = map flat good ++ bad :: rest
    /\ forall lid', lid' <> lid -> lists' lid' = lists lid'.
Proof.
  intros Hl Hgood Hbad.
  destruct (flatten_list_from lid good [] (bad :: rest) lists)
    as (lists' & Hrun & Hlid & Hother); [exact Hl | exact Hgood|].
  cbn [app List.length] in Hrun, Hlid. rewrite Hl, Hrun.
  cbn [seq flatten_list]. rewrite Hlid, nth_error_middle, Hbad.
  exists lists'. auto.
Qed.

(** The lists of a prefix of the places, all good, are replaced. *)
Lemma each_good (lids : list ListId) :
  forall lists,
    distinct lids = true ->
    (forall lid, In lid lids -> forallb has_rows (lists lid) = true) ->
    exists lists',
      each lids
        (fun lid lists =>
           flatten_list lid (seq 0 (List.length (lists lid))) lists)
        lists
      = (None, lists')
      /\ (forall lid, In lid lids -> lists' lid = map flat (lists lid))
      /\ (forall lid, ~ In lid lids -> lists' lid = lists lid).
Proof.
  induction lids as [|lid lids IH]; intros lists Hd Hgood.
  - exists lists. cbn [each In]. split; [reflexivity|]. split; tauto.
  - apply distinct_cons in Hd as [Hfresh Hd]. cbn [each].
    destruct (flatten_list_good lid lists (Hgood lid (or_introl eq_refl)))
      as (lists1 & -> & Hlid & Hother).
    assert (Hrest : forall lid', In lid' lids -> lists1 lid' = lists lid').
    { intros lid' Hin. apply Hother. intros ->. contradiction. }
    destruct (IH lists1 Hd) as (lists' & Hrun & Hin' & Hout').
    { intros lid' Hin. rewrite (Hrest lid' Hin). apply Hgood. now right. }
    exists lists'. split; [exact Hrun|]. split.
    + intros lid' [<- | Hin].
      * now rewrite (Hout' lid Hfresh).
      * now rewrite (Hin' lid' Hin), (Hrest lid' Hin).
    + intros lid' Hnot. cbn [In] in Hnot.
      rewrite Hout' by tauto. apply Hother. intros ->. tauto.
Qed.

End WebhookFacts.

Module WebhookSplit.
Import Webhook.

(** The first list of the places that is not empty. *)
Lemma first_non_empty (lids : list ListId) (lists : Lists) :
  (exists lid, In lid lids /\ lists lid <> []) ->
  exists pre lid post first rest,
    lids = pre ++ lid :: post
    /\ (forall lid', In lid' pre -> lists lid' = [])
    /\ lists lid = first :: rest.
Proof.
  induction lids as [|lid0 lids IH]; intros (lid & Hin & Hne);
    [destruct Hin|].
  destruct (lists lid0) as [|first rest] eqn:Hl0.
  - destruct Hin as [-> | Hin]; [contradiction|].
    destruct (IH (ex_intro _ lid (conj Hin Hne)))
      as (pre & lid1 & post & first & rest & -> & Hpre & Hl1).
    exists (lid0 :: pre), lid1, post, first, rest.
    split; [reflexivity|]. split; [|exact Hl1].
    intros lid' [<- | Hin']; [exact Hl0 | now apply Hpre].
  - exists [], lid0, lids, first, rest.
    split; [reflexivity|]. split; [intros ? [] | exact Hl0].
Qed.

Lemma each_bad (pre : list ListId) (lid : ListId) (post : list ListId)
    (lists : Lists) (good : list Entry) (bad : Entry) (rest : list Entry)
    (e : error) :
  distinct (pre ++ lid :: post) = true ->
  (forall lid', In lid' pre -> forallb has_rows (lists lid') = true) ->
  lists lid = good ++ bad :: rest ->
  forallb has_rows good = true ->
  last_record bad = inl e ->
  exists lists',
    each (pre ++ lid :: post)
      (fun lid lists =>
         flatten_list lid (seq 0 (List.length (lists lid))) lists)
      lists
    = (Some e, lists')
    /\ (forall lid', In lid' pre -> lists' lid' = map flat (lists lid'))
    /\ lists' lid = map flat good ++ bad :: rest
    /\ (forall lid', ~ In lid' (pre ++ [lid]) -> lists' lid' = lists lid').
Proof.
  intros Hd Hpre Hl Hgood Hbad.
  assert (Hfresh : ~ In lid pre).
  { clear -Hd. induction pre as [|p pre IH]; [intros []|].
    cbn [app] in Hd. apply distinct_cons in Hd as [Hp Hd].
    intros [-> | Hin]; [|exact (IH Hd Hin)].
    apply Hp. apply in_or_app. right. now left. }
  destruct (WebhookFacts.each_good pre lists (distinct_app_l _ _ Hd) Hpre)
    as (lists1 & Hrun & Hin1 & Hout1).
  rewrite WebhookFacts.each_app, Hrun. cbn [each].
  destruct (WebhookFacts.flatten_list_bad lid lists1 good bad rest e)
    as (lists' & -> & Hlid & Hother); auto.
  { now rewrite (Hout1 lid Hfresh). }
  exists lists'. split; [reflexivity|]. split; [|split].
  - intros lid' Hin. rewrite Hother; [now apply Hin1|].
    intros ->. contradiction.
  - exact Hlid.
  - intros lid' Hnot.
    rewrite Hother by (intros ->; apply Hnot, in_or_app; right; now left).
    apply Hout1. intros Hin. apply Hnot, in_or_app. now left.
Qed.

End WebhookSplit.

(** X11: when the webhook notifier is configured, no list occurs at two
    places of the snapshot and every entry is an occurrence with at least
    one row, [notify_webhook] replaces every occurrence, in place, by the
    record of its last row (the lists keep their lengths and order, lists
    outside the snapshot are not touched) and hands the snapshot so changed
    to the client, once. *)
Theorem webhook_sends_last_rows
    (new_analysis : Webhook.Tree) (lists : Webhook.Lists)
    (sent : list Webhook.Payload) :
  distinct (Webhook.places new_analysis) = true ->
  (forall lid, In lid (Webhook.places new_analysis) ->
               forallb Webhook.has_rows (lists lid) = true) ->
  exists lists',
    Webhook.notify_webhook true new_analysis lists sent
    = (None, lists', sent ++ [Webhook.resolve new_analysis lists'])
    /\ (forall lid, In lid (Webhook.places new_analysis) ->
                    lists' lid = map Webhook.flat (lists lid))
    /\ (forall lid, ~ In lid (Webhook.places new_analysis) ->
                    lists' lid = lists lid).
Proof.
  intros Hd Hgood. unfold Webhook.notify_webhook.
  rewrite WebhookFacts.flatten_places.
  destruct (WebhookFacts.each_good _ lists Hd Hgood)
    as (lists' & -> & Hin & Hout).
  exists lists'. auto.
Qed.

Lemma webhook_sends_last_rows_witness :
  let lists := fun lid : nat =>
    match lid with
    | 0 => [Webhook.Occurrence Scenario.hot_once;
            Webhook.Occurrence Scenario.cold_once]
    | _ => []
    end in
  exists lists',
    Webhook.notify_webhook true (Scenario.webhook_tree 0) lists []
    = (None, lists',
       [[("ex1", [("BTC/USD", [("indicators", [("rsi", lists' 0)])])])]])
    /\ lists' 0 = [Webhook.Record_ (Scenario.row true false);
                   Webhook.Record_ (Scenario.row false true)].
Proof.
  cbv zeta.
  destruct (webhook_sends_last_rows (Scenario.webhook_tree 0)
              (fun lid : nat =>
                 match lid with
                 | 0 => [Webhook.Occurrence Scenario.hot_once;
                         Webhook.Occurrence Scenario.cold_once]
                 | _ => []
                 end) [] eq_refl)
    as (lists' & Hrun & Hin & _).
  { intros lid [<- | []]. reflexivity. }
  exists lists'. split; [exact Hrun|].
  exact (Hin 0 (or_introl eq_refl)).
Defined.

(** X12: when an entry raises (an occurrence without rows raises
    [IndexError], a record that already replaced its occurrence raises
    [KeyError] 'result'), [notify_webhook] raises and the client is not
    called at all; the entries before it, in its list and in the lists
    before, stay replaced by their records, and the entries after it are
    left as they were. *)
Theorem webhook_stops_at_first_error
    (new_analysis : Webhook.Tree) (lists : Webhook.Lists)
    (sent : list Webhook.Payload) (pre : list Webhook.ListId)
    (lid : Webhook.ListId) (post : list Webhook.ListId)
    (good : list Webhook.Entry) (bad : Webhook.Entry)
    (rest : list Webhook.Entry) (e : Webhook.error) :
  Webhook.places new_analysis = pre ++ lid :: post ->
  distinct (Webhook.places new_analysis) = true ->
  (forall lid', In lid' pre -> forallb Webhook.has_rows (lists lid') = true) ->
  lists lid = good ++ bad :: rest ->
  forallb Webhook.has_rows good = true ->
  Webhook.last_record bad = inl e ->
  exists lists',
    Webhook.notify_webhook true new_analysis lists sent
    = (Some e, lists', sent)
    /\ (forall lid', In lid' pre ->
                     lists' lid' = map Webhook.flat (lists lid'))
    /\ lists' lid = map Webhook.flat good ++ bad :: rest
    /\ (forall lid', ~ In lid' (pre ++ [lid]) -> lists' lid' = lists lid').
Proof.
  intros Hplaces Hd Hpre Hl Hgood Hbad. unfold Webhook.notify_webhook.
  rewrite WebhookFacts.flatten_places, Hplaces. rewrite Hplaces in Hd.
  destruct (WebhookSplit.each_bad pre lid post lists good bad rest e
              Hd Hpre Hl Hgood Hbad) as (lists' & -> & Hrest).
  exists lists'. split; [reflexivity | exact Hrest].
Qed.

Lemma webhook_stops_at_first_error_witness :
  let lists := fun lid : nat =>
    match lid with
    | 0 => [Webhook.Occurrence Scenario.hot_once;
            Webhook.Occurrence Scenario.no_rows;
            Webhook.Occurrence Scenario.cold_once]
    | _ => []
    end in
  exists lists',
    Webhook.notify_webhook true (Scenario.webhook_tree 0) lists []
    = (Some Webhook.IndexError_, lists', [])
    /\ lists' 0 = [Webhook.Record_ (Scenario.row true false);
                   Webhook.Occurrence Scenario.no_rows;
                   Webhook.Occurrence Scenario.cold_once].
Proof.
  cbv zeta.
  destruct (webhook_stops_at_first_error (Scenario.webhook_tree 0)
              (fun lid : nat =>
                 match lid with
                 | 0 => [Webhook.Occurrence Scenario.hot_once;
                         Webhook.Occurrence Scenario.no_rows;
                         Webhook.Occurrence Scenario.cold_once]
                 | _ => []
                 end) [] [] 0 []
              [Webhook.Occurrence Scenario.hot_once]
              (Webhook.Occurrence Scenario.no_rows)
              [Webhook.Occurrence Scenario.cold_once] Webhook.IndexError_
              eq_refl eq_refl (fun _ (H : In _ []) => match H with end)
              eq_refl eq_refl eq_refl)
    as (lists' & Hrun & _ & Hlid & _).
  exists lists'. split; [exact Hrun | exact Hlid].
Defined.

(** X13: [notify_webhook] cannot be repeated.  After a call that went
    through, a second call on the same snapshot, if it holds any entry at
    all, raises at the first record it meets ([KeyError] 'result', or
    [AttributeError] when the rows have a column of that name), and the
    client is not called a second time. *)
Theorem webhook_twice_raises
    (new_analysis : Webhook.Tree) (lists : Webhook.Lists)
    (sent : list Webhook.Payload) :
  distinct (Webhook.places new_analysis) = true ->
  (forall lid, In lid (Webhook.places new_analysis) ->
               forallb Webhook.has_rows (lists lid) = true) ->
  (exists lid, In lid (Webhook.places new_analysis) /\ lists lid <> []) ->
  exists lists1 sent1 e lists2,
    Webhook.notify_webhook true new_analysis lists sent = (None, lists1, sent1)
    /\ Webhook.notify_webhook true new_analysis lists1 sent1
       = (Some e, lists2, sent1)
    /\ (e = Webhook.KeyError_ "result" \/ e = Webhook.AttributeError).
Proof.
  intros Hd Hgood Hsome.
  destruct (WebhookFacts.each_good _ lists Hd Hgood)
    as (lists1 & Hrun1 & Hin1 & _).
  destruct (WebhookSplit.first_non_empty _ lists Hsome)
    as (pre & lid & post & first & rest & Hplaces & Hpre & Hl).
  assert (Hlid : In lid (Webhook.places new_analysis)).
  { rewrite Hplaces. apply in_or_app. right. now left. }
  assert (Hfirst : exists row, Webhook.flat first = Webhook.Record_ row).
  { destruct first; cbn [Webhook.flat]; eauto. }
  destruct Hfirst as [row Hrow].
  assert (Hbad : exists e, Webhook.last_record (Webhook.Record_ row) = inl e
                           /\ (e = Webhook.KeyError_ "result"
                               \/ e = Webhook.AttributeError)).
  { cbn [Webhook.last_record]. destruct (dict_get "result" row); eauto. }
  destruct Hbad as (e & Hbad & He).
  pose proof Hd as Hd'. rewrite Hplaces in Hd'.
  destruct (WebhookSplit.each_bad pre lid post lists1 []
              (Webhook.Record_ row) (map Webhook.flat rest) e Hd')
    as (lists2 & Hrun2 & _); auto.
  { intros lid' Hin'.
    rewrite Hin1 by (rewrite Hplaces; apply in_or_app; now left).
    now rewrite (Hpre lid' Hin'). }
  { rewrite (Hin1 lid Hlid), Hl. cbn [map app]. now rewrite Hrow. }
  rewrite <- Hplaces in Hrun2.
  exists lists1, (sent ++ [Webhook.resolve new_analysis lists1]), e, lists2.
  unfold Webhook.notify_webhook.
  rewrite !WebhookFacts.flatten_places, Hrun1, Hrun2. auto.
Qed.

Lemma webhook_twice_raises_witness :
  let lists := fun lid : nat =>
    match lid with
    | 0 => [Webhook.Occurrence Scenario.hot_once]
    | _ => []
    end in
  exists lists1 sent1 e lists2,
    Webhook.notify_webhook true (Scenario.webhook_tree 0) lists []
    = (None, lists1, sent1)
    /\ Webhook.notify_webhook true (Scenario.webhook_tree 0) lists1 sent1
       = (Some e, lists2, sent1)
    /\ (e = Webhook.KeyError_ "result" \/ e = Webhook.AttributeError).
Proof.
  cbv zeta.
  refine (webhook_twice_raises (Scenario.webhook_tree 0)
            (fun lid : nat =>
               match lid with
               | 0 => [Webhook.Occurrence Scenario.hot_once]
               | _ => []
               end) [] eq_refl _ _).
  - intros lid [<- | []]. reflexivity.
  - exists 0. split; [now left | discriminate].
Defined.
